(** * The family-story video pipeline

    A shallow embedding of the agents of the repository
    ([history_agent.py], [story_agent.py], [script_agent.py],
    [image_agent.py], [video_agent.py], [agent.py]) and the properties
    of the pipeline proved about it.

    Python values are modelled as follows: a dict with a fixed set of
    keys is a record; the dict returned by the metadata fetcher, whose
    keys vary, is a record of optional fields (a field is [Some] exactly
    when the key is present); [int] is [Z]; the local filesystem is a
    finite map from paths to contents; an exception is a value of [exn];
    a function of the source is a state-passing computation [M] over the
    [World] (files, console, outbound requests, slept time). *)

From Stdlib Require Import ZArith String List Lia.
From stdpp Require Import gmap strings list pretty sorting.

(** ** Strings *)

(** [needle in hay] of Python, by a scan from the left. *)
Fixpoint str_in (needle hay : string) : bool :=
  if String.prefix needle hay then true
  else match hay with
       | EmptyString => false
       | String _ rest => str_in needle rest
       end.

(** [s.replace(old, new)]: every occurrence of [old], from the left and
    not overlapping, becomes [new].  [skip] counts the characters of a
    match that are still to be dropped. *)
Fixpoint str_replace_go (old new : string) (skip : nat) (s : string) : string :=
  match s with
  | EmptyString =>
      match old with EmptyString => new | String _ _ => EmptyString end
  | String c rest =>
      match skip with
      | S k => str_replace_go old new k rest
      | O =>
          if String.prefix old s
          then new +:+
               match old with
               | EmptyString => String c (str_replace_go old new 0 rest)
               | String _ _ => str_replace_go old new (String.length old - 1) rest
               end
          else String c (str_replace_go old new 0 rest)
      end
  end.

Definition str_replace (old new s : string) : string :=
  str_replace_go old new 0 s.

(** [os.path.join(dir, name)] for a relative [name] and a [dir] that
    does not end in a separator, which is how the agents call it. *)
Definition path_join (dir name : string) : string := dir +:+ "/" +:+ name.

(** ** Exceptions, results and the world *)

Inductive exn : Type :=
| KeyError (key : string)
| IndexError
| FileNotFoundError (path : string)
| CalledProcessError (cmd : string)
| ClientError (msg : string).

Inductive res (A : Type) : Type :=
| Ok (a : A)
| Raise (e : exn)
| OutOfFuel.
Arguments Ok {A} a.
Arguments Raise {A} e.
Arguments OutOfFuel {A}.

(** What leaves the process. *)
Inductive Request : Type :=
| HttpGet (url : string)
| GenerateContent (references : list string) (prompt : string)
| GenerateVideos (prompt image_location : string)
| OperationsGet (refresh : nat)
| Shell (cmd : string).

Record World : Type := mkWorld {
  fs : gmap string string;
  stdout : list string;
  sent : list Request;
  clock : Z
}.

Definition M (A : Type) : Type := World -> res A * World.

Definition ret {A} (a : A) : M A := fun w => (Ok a, w).

Definition raise {A} (e : exn) : M A := fun w => (Raise e, w).

Definition bind {A B} (c : M A) (k : A -> M B) : M B :=
  fun w =>
    match c w with
    | (Ok a, w') => k a w'
    | (Raise e, w') => (Raise e, w')
    | (OutOfFuel, w') => (OutOfFuel, w')
    end.

Notation "'do' x <- c ; k" := (bind c (fun x => k))
  (at level 10, x name, c at level 100, k at level 200).
Notation "c ;; k" := (bind c (fun _ => k))
  (at level 100, k at level 200, right associativity).

Definition print (line : string) : M unit :=
  fun w => (Ok tt, mkWorld (fs w) (stdout w ++ [line]) (sent w) (clock w)).

Definition send (r : Request) : M unit :=
  fun w => (Ok tt, mkWorld (fs w) (stdout w) (sent w ++ [r]) (clock w)).

Definition sleep (d : Z) : M unit :=
  fun w => (Ok tt, mkWorld (fs w) (stdout w) (sent w) (clock w + d)).

(** [open(path, "w")] or ["wb"], then [write]. *)
Definition write_file (path data : string) : M unit :=
  fun w => (Ok tt, mkWorld (<[path := data]> (fs w)) (stdout w) (sent w) (clock w)).

(** [open(path, "rb")], then [read]. *)
Definition read_file (path : string) : M string :=
  fun w =>
    match fs w !! path with
    | Some data => (Ok data, w)
    | None => (Raise (FileNotFoundError path), w)
    end.

(** [os.remove(path)]. *)
Definition os_remove (path : string) : M unit :=
  fun w =>
    match fs w !! path with
    | Some _ => (Ok tt, mkWorld (delete path (fs w)) (stdout w) (sent w) (clock w))
    | None => (Raise (FileNotFoundError path), w)
    end.

(** [l[i]] *)
Definition getitem {A} (l : list A) (i : nat) : M A :=
  match l !! i with
  | Some a => ret a
  | None => raise IndexError
  end.

(** ** Data model *)

Record CharacterRecord : Type := mkCharacter {
  name : string;
  birth_place : string;
  image_url : string
}.

(** The dict of the metadata fetcher: [{"characters": ...}] or
    [{"error": ...}]. *)
Record CharacterData : Type := mkCharacterData {
  characters : option (list CharacterRecord);
  error : option string
}.

Record FamilyHistory : Type := mkFamilyHistory { records : list CharacterRecord }.

Record Scene : Type := mkScene {
  scene_number : Z;
  description : string
}.

Record Story : Type := mkStory { scenes : list Scene }.

Record ScriptEntry : Type := mkScriptEntry {
  entry_scene_number : Z;
  entry_description : string;
  dialogue : string
}.

Record Script : Type := mkScript { script : list ScriptEntry }.

Record ImagePair : Type := mkImagePair {
  pair_scene_number : Z;
  start_image_path : string;
  end_image_path : string
}.

Record Images : Type := mkImages { images : list ImagePair }.

(** ** Narrative builder: [story_agent.py] *)

Definition create_story (family_history : FamilyHistory) : M Story :=
  print "Creating story..." ;;
  do r0 <- getitem (records family_history) 0 ;
  do r1 <- getitem (records family_history) 1 ;
  ret (mkStory
    [ mkScene 1 ("Narrator: Meet " +:+ name r0 +:+ ", born in " +:+ birth_place r0
                 +:+ ", a man of strength and skill. And this is " +:+ name r1
                 +:+ ", born in " +:+ birth_place r1
                 +:+ ", a woman of knowledge and grace.");
      mkScene 2 ("Narrator: " +:+ name r0
                 +:+ " was a blacksmith, his days filled with the clang of the hammer and the heat of the forge.");
      mkScene 3 ("Narrator: " +:+ name r1
                 +:+ " was a teacher, her days spent in a library, surrounded by books and knowledge.");
      mkScene 4 "Narrator: They met in a library, a place of quiet and books, where their love story began. Their journey together led them to a beautiful wedding, a celebration of their love." ]).

(** ** Scene scripter: [script_agent.py] *)

Definition placeholder_dialogue : string := "This is a placeholder dialogue.".

Definition script_entry (scene : Scene) : ScriptEntry :=
  mkScriptEntry (scene_number scene) (description scene) placeholder_dialogue.

Definition create_script (story : Story) : M Script :=
  print "Creating script..." ;;
  ret (mkScript (map script_entry (scenes story))).

(** ** The environment

    The services the agents talk to are not part of the repository; an
    [Env] fixes how they answer.  Building the SDK clients is taken to
    succeed.  Every theorem below holds for every
    [Env].  The index given to the generation oracles is the number of
    requests sent before the call, so one request asked twice may be
    answered differently. *)

(** The answer of [requests.get]: the status and, decoded, the JSON
    array the lookup service sends with a 200. *)
Record Response : Type := mkResponse {
  status_code : Z;
  json : list CharacterRecord
}.

(** The outcome of [client.models.generate_content]: the call raised, or
    it gave the parts of the first candidate (none when there is no
    candidate), each with its [inline_data] when it has one. *)
Inductive ContentResult : Type :=
| ContentRaised (msg : string)
| ContentParts (parts : list (option string)).

(** A video operation: [done], and [response] with the bytes of its
    generated videos once it succeeded. *)
Record Operation : Type := mkOperation {
  done : bool;
  response : option (list string)
}.

Record Env : Type := mkEnv {
  requests_get : string -> Response;
  (** [urlparse(url).path] *)
  urlparse_path : string -> string;
  generate_content : nat -> list string -> string -> ContentResult;
  (** [client.models.generate_videos], which loads the start image from
      the given location: [None] when the call raises, else the
      operation as the service reports it, first (at 0) and then after
      each [client.operations.get]. *)
  generate_videos : nat -> string -> string -> gmap string string -> option (nat -> Operation);
  (** The text an operation prints as. *)
  operation_repr : Operation -> string;
  (** The exit status of the concat run of ffmpeg on the given files,
      and the stream it writes when the status is 0. *)
  ffmpeg_status : string -> gmap string string -> Z;
  ffmpeg_output : string -> gmap string string -> string
}.

(** ** Metadata fetcher: [history_agent.py] *)

Definition lookup_url (family_name : string) : string :=
  "http://localhost:8000/mcp?family_name=" +:+ family_name.

Definition fetch_error_message (status : Z) : string :=
  "Failed to fetch character images: " +:+ pretty status.

Definition get_character_images (E : Env) (family_name : string) : M CharacterData :=
  print ("Fetching character images and metadata for " +:+ family_name +:+ "...") ;;
  send (HttpGet (lookup_url family_name)) ;;
  let response := requests_get E (lookup_url family_name) in
  if (status_code response =? 200)%Z
  then ret (mkCharacterData (Some (json response)) None)
  else ret (mkCharacterData None (Some (fetch_error_message (status_code response)))).

(** ** Image synthesizer: [image_agent.py]

    The images directory is created on entry when it is missing; the
    filesystem of the model holds files only, so that step has no
    counterpart here. *)

Definition images_dir : string := "/usr/local/google/home/mlad/adk-demo/images".

Definition style_suffix : string :=
  ", in the style of a vintage photograph, with a warm, sepia-toned palette, cinematic, photorealistic, the characters are looking away from the camera, their faces are not clearly visible, detailed environment.".

(** [character_images["characters"]] *)
Definition getitem_characters (character_images : CharacterData) : M (list CharacterRecord) :=
  match characters character_images with
  | Some cs => ret cs
  | None => raise (KeyError "characters")
  end.

Definition base_prompt_of (scene : ScriptEntry) : string :=
  str_replace "Narrator: " "" (entry_description scene).

(** The loop over the characters that fills [character_parts]. *)
Fixpoint collect_character_parts (E : Env) (base_prompt : string)
    (cs : list CharacterRecord) : M (list string) :=
  match cs with
  | [] => ret []
  | character :: rest =>
      if str_in (name character) base_prompt
      then
        do character_image_data <- read_file (urlparse_path E (image_url character)) ;
        do parts <- collect_character_parts E base_prompt rest ;
        ret (character_image_data :: parts)
      else collect_character_parts E base_prompt rest
  end.

Fixpoint first_inline_data (parts : list (option string)) : option string :=
  match parts with
  | [] => None
  | Some data :: _ => Some data
  | None :: rest => first_inline_data rest
  end.

Definition call_generate_content (E : Env) (contents : list string) (prompt : string)
    : M ContentResult :=
  fun w =>
    (Ok (generate_content E (length (sent w)) contents prompt),
     mkWorld (fs w) (stdout w) (sent w ++ [GenerateContent contents prompt]) (clock w)).

(** The [except] branch of [generate_image]. *)
Definition generation_failed (prompt output_path msg : string) : M bool :=
  print ("Failed to generate image for prompt '" +:+ prompt +:+ "': " +:+ msg) ;;
  write_file output_path "Placeholder: Image generation failed." ;;
  ret false.

Definition generate_image (E : Env) (character_parts : list string)
    (prompt output_path : string) : M bool :=
  do result <- call_generate_content E character_parts prompt ;
  match result with
  | ContentRaised msg => generation_failed prompt output_path msg
  | ContentParts parts =>
      match first_inline_data parts with
      | Some data => write_file output_path data ;; ret true
      | None => generation_failed prompt output_path "No image data in response"
      end
  end.

Definition scene_image_path (n : Z) (which : string) : string :=
  path_join images_dir ("scene_" +:+ pretty n +:+ "_" +:+ which +:+ ".png").

(** The body of the loop of [create_images]. *)
Definition scene_images (E : Env) (character_images : CharacterData)
    (scene : ScriptEntry) : M ImagePair :=
  let n := entry_scene_number scene in
  if (n =? 1)%Z
  then
    do cs <- getitem_characters character_images ;
    do first <- getitem cs 0 ;
    do cs' <- getitem_characters character_images ;
    do second <- getitem cs' 1 ;
    ret (mkImagePair n (urlparse_path E (image_url first))
                       (urlparse_path E (image_url second)))
  else
    let base_prompt := base_prompt_of scene in
    let before_prompt := "Before the action: " +:+ base_prompt +:+ style_suffix in
    let after_prompt :=
      if (n =? 4)%Z
      then "A wedding picture of John and Jane" +:+ style_suffix
      else "After the action: " +:+ base_prompt +:+ style_suffix in
    do character_parts <-
      match characters character_images with
      | Some cs => collect_character_parts E base_prompt cs
      | None => ret []
      end ;
    let start_path := scene_image_path n "start" in
    let end_path := scene_image_path n "end" in
    generate_image E character_parts before_prompt start_path ;;
    generate_image E character_parts after_prompt end_path ;;
    ret (mkImagePair n start_path end_path).

Fixpoint for_each_scene (E : Env) (character_images : CharacterData)
    (entries : list ScriptEntry) : M (list ImagePair) :=
  match entries with
  | [] => ret []
  | scene :: rest =>
      do pair <- scene_images E character_images scene ;
      do pairs <- for_each_scene E character_images rest ;
      ret (pair :: pairs)
  end.

Definition create_images (E : Env) (sc : Script) (character_images : CharacterData)
    : M Images :=
  print "Creating images..." ;;
  do image_paths <- for_each_scene E character_images (script sc) ;
  ret (mkImages image_paths).

(** ** Video synthesizer: [video_agent.py]

    As for the images, the videos directory is created on entry when it
    is missing. *)

Definition videos_dir : string := "/usr/local/google/home/mlad/adk-demo/videos".

Definition pan_instruction : string :=
  " The camera pans from left to center on the first person, then from right to center on the second person.".

Definition poll_interval : Z := 15.

(** [while not operation.done: time.sleep(15); operation = client.operations.get(operation)].
    [k] counts the refreshes made so far; the loop has no counter of its
    own, [fuel] bounds the iterations the model follows. *)
Fixpoint poll (fuel : nat) (job : nat -> Operation) (k : nat) : M Operation :=
  if done (job k) then ret (job k)
  else
    match fuel with
    | O => fun w => (OutOfFuel, w)
    | S fuel' =>
        sleep poll_interval ;;
        send (OperationsGet (S k)) ;;
        poll fuel' job (S k)
    end.

Definition call_generate_videos (E : Env) (prompt image_location : string)
    : M (nat -> Operation) :=
  fun w =>
    let w' := mkWorld (fs w) (stdout w)
                (sent w ++ [GenerateVideos prompt image_location]) (clock w) in
    match generate_videos E (length (sent w)) prompt image_location (fs w) with
    | Some job => (Ok job, w')
    | None => (Raise (ClientError "generate_videos"), w')
    end.

Definition clip_path (i : nat) : string :=
  path_join videos_dir ("scene_" +:+ pretty (S i) +:+ ".mp4").

(** The body of the loop over [enumerate(script["script"])]: the clip
    written for scene [i], if any. *)
Definition scene_clip (E : Env) (fuel : nat) (imgs : Images) (i : nat)
    (scene : ScriptEntry) : M (option string) :=
  print ("Generating video for scene " +:+ pretty (S i) +:+ "...") ;;
  let prompt := entry_description scene in
  do pair <- getitem (images imgs) i ;
  let starting_image_path := start_image_path pair in
  do pair' <- getitem (images imgs) i ;
  let ending_image_path := end_image_path pair' in
  let prompt := if (i =? 0)%nat then prompt +:+ pan_instruction else prompt in
  do job <- call_generate_videos E prompt starting_image_path ;
  do operation <- poll fuel job 0 ;
  match response operation with
  | Some generated_videos =>
      do video_data <- getitem generated_videos 0 ;
      write_file (clip_path i) video_data ;;
      ret (Some (clip_path i))
  | None =>
      print ("Failed to generate video for scene " +:+ pretty (S i)) ;;
      print ("Operation details: " +:+ operation_repr E operation) ;;
      ret None
  end.

Fixpoint generate_clips (E : Env) (fuel : nat) (imgs : Images) (i : nat)
    (entries : list ScriptEntry) (video_clips : list string) : M (list string) :=
  match entries with
  | [] => ret video_clips
  | scene :: rest =>
      do clip <- scene_clip E fuel imgs i scene ;
      generate_clips E fuel imgs (S i) rest
        (match clip with Some p => video_clips ++ [p] | None => video_clips end)
  end.

Definition final_video_path : string := path_join videos_dir "final_video.mp4".
Definition file_list_path : string := path_join videos_dir "file_list.txt".

(** What is written to the manifest. *)
Fixpoint file_list (video_clips : list string) : string :=
  match video_clips with
  | [] => ""
  | clip :: rest => "file '" +:+ clip +:+ "'" +:+ String (Ascii.ascii_of_nat 10) (file_list rest)
  end.

Definition ffmpeg_command : string :=
  "ffmpeg -f concat -safe 0 -i " +:+ file_list_path +:+ " -c copy "
  +:+ final_video_path +:+ " -y".

(** [subprocess.run(ffmpeg_command, shell=True, check=True)].  ffmpeg is
    taken to write its output file, and nothing else, when it exits
    with status 0; [check=True] raises on any other status. *)
Definition subprocess_run_ffmpeg (E : Env) : M unit :=
  fun w =>
    let sent' := sent w ++ [Shell ffmpeg_command] in
    if (ffmpeg_status E ffmpeg_command (fs w) =? 0)%Z
    then (Ok tt, mkWorld (<[final_video_path := ffmpeg_output E ffmpeg_command (fs w)]> (fs w))
                         (stdout w) sent' (clock w))
    else (Raise (CalledProcessError ffmpeg_command),
          mkWorld (fs w) (stdout w) sent' (clock w)).

Fixpoint remove_clips (video_clips : list string) : M unit :=
  match video_clips with
  | [] => ret tt
  | clip :: rest => os_remove clip ;; remove_clips rest
  end.

(** Lines 58 to 94.  The filter graph, the input list and the video
    chain that the source builds first are never used and are left out. *)
Definition stitch (E : Env) (video_clips : list string) : M string :=
  if (1 <? length video_clips)%nat
  then
    print "Stitching video clips together with fade transitions..." ;;
    write_file file_list_path (file_list video_clips) ;;
    subprocess_run_ffmpeg E ;;
    remove_clips video_clips ;;
    os_remove file_list_path ;;
    ret final_video_path
  else if (length video_clips =? 1)%nat
  then getitem video_clips 0
  else ret "".

Definition create_video (E : Env) (fuel : nat) (story : Story) (sc : Script)
    (imgs : Images) : M string :=
  print "Creating video..." ;;
  do video_clips <- generate_clips E fuel imgs 0 (script sc) [] ;
  stitch E video_clips.

(** ** Orchestrator: [agent.py] *)

Definition generate_family_story_video (E : Env) (fuel : nat) (family_name : string)
    : M string :=
  print ("Starting video generation for the " +:+ family_name +:+ " family...") ;;
  do character_data <- get_character_images E family_name ;
  do recs <- getitem_characters character_data ;
  do story <- create_story (mkFamilyHistory recs) ;
  do sc <- create_script story ;
  do imgs <- create_images E sc character_data ;
  create_video E fuel story sc imgs.

(** ** A concrete run: the Doe family *)

Definition john : CharacterRecord :=
  mkCharacter "John" "Springfield" "file:///home/doe/john.jpg".
Definition jane : CharacterRecord :=
  mkCharacter "Jane" "Rivertown" "file:///home/doe/jane.jpg".

(** Drops the ["file://"] of a URL. *)
Definition drop_scheme (url : string) : string :=
  String.substring 7 (String.length url - 7) url.

(** A service that knows the Doe family only, generates every image,
    and finishes every video job at its second refresh. *)
Definition doe_env : Env := {|
  requests_get url :=
    if String.eqb url (lookup_url "Doe")
    then mkResponse 200 [john; jane]
    else mkResponse 404 [];
  urlparse_path := drop_scheme;
  generate_content _ _ prompt := ContentParts [None; Some ("png:" +:+ prompt)];
  generate_videos _ prompt _ _ :=
    Some (fun k => if (2 <=? k)%nat
                   then mkOperation true (Some ["mp4:" +:+ prompt])
                   else mkOperation false None);
  operation_repr _ := "<operation>";
  ffmpeg_status _ _ := 0%Z;
  ffmpeg_output _ _ := "mp4:final"
|}.

Definition doe_world : World :=
  mkWorld (<["/home/doe/john.jpg" := "jpg:john"]>
             (<["/home/doe/jane.jpg" := "jpg:jane"]> ∅)) [] [] 0.

Definition empty_world : World := mkWorld ∅ [] [] 0.

(** ** Worlds reached

    The worlds the theorems name. *)

(** The world after the one lookup request. *)
Definition after_fetch (family_name : string) (w : World) : World :=
  mkWorld (fs w)
    (stdout w ++ ["Fetching character images and metadata for " +:+ family_name +:+ "..."])
    (sent w ++ [HttpGet (lookup_url family_name)])
    (clock w).

(** The Narrative Builder has been entered once its first line is on
    the console. *)
Definition reaches_narrative_builder (w : World) : Prop :=
  "Creating story..." ∈ stdout w.

(** The world in which the orchestrator stops on the error shape. *)
Definition after_failed_fetch (family_name : string) (w : World) : World :=
  after_fetch family_name
    (mkWorld (fs w)
       (stdout w ++ ["Starting video generation for the " +:+ family_name +:+ " family..."])
       (sent w) (clock w)).

(** The world after [n] rounds of the poll loop that start at refresh
    [k]: each round sleeps for the interval and sends one refresh. *)
Fixpoint after_polls (n k : nat) (w : World) : World :=
  match n with
  | O => w
  | S n' =>
      after_polls n' (S k)
        (mkWorld (fs w) (stdout w) (sent w ++ [OperationsGet (S k)])
                 (clock w + poll_interval))
  end.



(** Every portrait that the scan for reference images opens, for the
    entries that are not scene 1, is a file of [files]. *)
Definition portraits_readable (E : Env) (cs : list CharacterRecord)
    (entries : list ScriptEntry) (files : gmap string string) : Prop :=
  forall scene character,
    scene ∈ entries ->
    entry_scene_number scene <> 1%Z ->
    character ∈ cs ->
    str_in (name character) (base_prompt_of scene) = true ->
    is_Some (files !! urlparse_path E (image_url character)).

(** The entries for which images are generated. *)
Definition generated_scenes (entries : list ScriptEntry) : list ScriptEntry :=
  filter (fun scene => entry_scene_number scene <> 1%Z) entries.

(** The script of the Doe family, as the first two stages make it. *)
Definition doe_script : Script :=
  mkScript
    (map script_entry
       (match fst (create_story (mkFamilyHistory [john; jane]) empty_world) with
        | Ok story => scenes story
        | _ => []
        end)).

Definition doe_characters : CharacterData :=
  mkCharacterData (Some [john; jane]) None.

Definition john_alone : CharacterData :=
  mkCharacterData (Some [john]) None.

(** A run that ended: it returned or it raised. *)
Definition finishes {A} (r : res A * World) : Prop := fst r <> OutOfFuel.

(** The world once a line is on the console. *)
Definition printed (line : string) (w : World) : World :=
  mkWorld (fs w) (stdout w ++ [line]) (sent w) (clock w).

(** What the loop of [create_video] keeps true of [video_clips]: no
    path twice, each the clip path of a scene before [bound], each a
    file. *)
Definition clips_on_disk (bound : nat) (video_clips : list string)
    (files : gmap string string) : Prop :=
  NoDup video_clips /\
  forall clip, clip ∈ video_clips ->
    (exists j, j < bound /\ clip = clip_path j) /\ is_Some (files !! clip).

(** The images of the Doe family, as the third stage makes them. *)
Definition doe_images : Images :=
  match fst (create_images doe_env doe_script doe_characters doe_world) with
  | Ok imgs => imgs
  | _ => mkImages []
  end.

(** The world in which the loop of [create_video] leaves the Doe run. *)
Definition doe_clips_world : World :=
  snd (generate_clips doe_env 5 doe_images 0 (script doe_script) []
         (printed "Creating video..." doe_world)).

(** ** Further observations

    What the remaining theorems name. *)

(** The characters whose portraits the scan for reference images opens
    for a prompt, in the order of the list. *)
Definition named_characters (base_prompt : string) (cs : list CharacterRecord)
    : list CharacterRecord :=
  filter (fun character => str_in (name character) base_prompt = true) cs.

(** The files that the image stage writes for a script. *)
Definition is_scene_image_path (entries : list ScriptEntry) (path : string) : Prop :=
  exists scene which,
    scene ∈ entries /\ entry_scene_number scene <> 1%Z /\
    (which = "start" \/ which = "end") /\
    path = scene_image_path (entry_scene_number scene) which.

(** Between two worlds, only files that satisfy [P] differ. *)
Definition writes_only (P : string -> Prop) (w w' : World) : Prop :=
  forall path, ~ P path -> fs w' !! path = fs w !! path.

(** Between two worlds, no file disappears. *)
Definition keeps_files (w w' : World) : Prop :=
  forall path, is_Some (fs w !! path) -> is_Some (fs w' !! path).

Definition placeholder_image : string := "Placeholder: Image generation failed.".

(** What every step of the image stage keeps true between two worlds:
    no sleep, no file removed, only files of [P] written, only
    generation requests sent, and without reference images when the
    dict has no "characters". *)
Definition image_stage_step (character_images : CharacterData)
    (P : string -> Prop) (w w' : World) : Prop :=
  clock w' = clock w /\
  keeps_files w w' /\
  writes_only P w w' /\
  exists requests,
    sent w' = sent w ++ requests /\
    Forall (fun r => exists parts prompt, r = GenerateContent parts prompt) requests /\
    (characters character_images = None ->
     Forall (fun r => exists prompt, r = GenerateContent [] prompt) requests).

(** The refreshes among some requests. *)
Fixpoint refreshes (requests : list Request) : nat :=
  match requests with
  | [] => 0
  | OperationsGet _ :: rest => S (refreshes rest)
  | _ :: rest => refreshes rest
  end.

(** The video jobs submitted among some requests. *)
Fixpoint submissions (requests : list Request) : nat :=
  match requests with
  | [] => 0
  | GenerateVideos _ _ :: rest => S (submissions rest)
  | _ :: rest => submissions rest
  end.

(** The requests of the video stage. *)
Definition is_video_request (r : Request) : Prop :=
  match r with
  | GenerateVideos _ _ | OperationsGet _ | Shell _ => True
  | HttpGet _ | GenerateContent _ _ => False
  end.

(** What every step of the video stage keeps true between two worlds:
    the requests sent are of the video stage, and the time slept is one
    poll interval per refresh. *)
Definition video_stage_step (w w' : World) (requests : list Request) : Prop :=
  sent w' = sent w ++ requests /\
  Forall is_video_request requests /\
  clock w' = (clock w + poll_interval * Z.of_nat (refreshes requests))%Z.

(** A stretch of the video stage that submits at most [jobs] video
    jobs. *)
Definition video_stage (jobs : nat) (w w' : World) : Prop :=
  exists requests,
    video_stage_step w w' requests /\ submissions requests <= jobs.

(** The Doe service with an ffmpeg that fails. *)
Definition broken_ffmpeg_env : Env := {|
  requests_get := requests_get doe_env;
  urlparse_path := urlparse_path doe_env;
  generate_content := generate_content doe_env;
  generate_videos := generate_videos doe_env;
  operation_repr := operation_repr doe_env;
  ffmpeg_status _ _ := 1%Z;
  ffmpeg_output := ffmpeg_output doe_env
|}.

(** A service whose lookup answers 200 with the given records. *)
Definition records_env (body : list CharacterRecord) : Env := {|
  requests_get _ := mkResponse 200 body;
  urlparse_path := urlparse_path doe_env;
  generate_content := generate_content doe_env;
  generate_videos := generate_videos doe_env;
  operation_repr := operation_repr doe_env;
  ffmpeg_status := ffmpeg_status doe_env;
  ffmpeg_output := ffmpeg_output doe_env
|}.

(** The world in which the orchestrator enters the Narrative Builder. *)
Definition before_story (family_name : string) (w : World) : World :=
  after_fetch family_name
    (printed ("Starting video generation for the " +:+ family_name +:+ " family...") w).

(** ** The lookup service: [mcp_server.py]

    The handler of GET requests.  Parsing of the query string and of
    JSON, stripping of white space and the extraction model belong to
    libraries and services; a [Service] fixes what they give. *)

(** A JSON value as far as the handler cares: a string, or any other
    value, kept as its text. *)
Inductive JsonValue : Type :=
| JString (s : string)
| JOther (text : string).

(** What [json.loads] makes of the answer of the model: an object, or
    a value that is not an object. *)
Inductive JsonDocument : Type :=
| JObject (fields : gmap string JsonValue)
| JNotObject.

(** An entry of the registry file: "image_url", and possibly "name". *)
Record RegistryEntry : Type := mkRegistryEntry {
  registered_name : option JsonValue;
  registered_image_url : string
}.

(** An element of the array sent with a 200. *)
Record ServedRecord : Type := mkServedRecord {
  served_name : JsonValue;
  served_birth_place : JsonValue;
  served_image_url : string
}.

(** The outcome of the call to the extraction model: it raised; it
    gave no candidate or no part; it gave a first part with this text. *)
Inductive ModelAnswer : Type :=
| ModelRaised
| ModelSilent
| ModelText (text : string).

Record Service : Type := mkService {
  (** [parse_qs(urlparse(path).query).get('family_name', [None])[0]] *)
  query_family_name : string -> option string;
  (** [json.load] of the registry file; [None] when it is not JSON *)
  load_registry : string -> option (gmap string (list RegistryEntry));
  (** [urlparse(url).path] *)
  portrait_path : string -> string;
  (** the answer to the request with this index and these image bytes *)
  extract : nat -> string -> ModelAnswer;
  (** [str.strip] *)
  str_strip : string -> string;
  (** [json.loads]; [None] when it raises [JSONDecodeError] *)
  json_loads : string -> option JsonDocument
}.

Inductive HandlerError : Type :=
| MissingFile (path : string)
| RegistryNotJson
| ModelCallFailed
| AnswerNotAnObject.

Inductive Body : Type :=
| JsonBody (records : list ServedRecord)
| TextBody (text : string).

Inductive Reply : Type :=
| Replied (status : Z) (body : Body)
| StaticFile (path : string)
| HandlerRaised (e : HandlerError).

Definition mcp_data_path : string := "/usr/local/google/home/mlad/adk-demo/mcp_data.json".

Definition unknown : JsonValue := JString "Unknown".

Definition default_metadata : gmap string JsonValue :=
  <["name" := unknown]> (<["birth_place" := unknown]> ∅).

(** The text handed to [json.loads]: stripped, and without the fences
    of a markdown block. *)
Definition clean_answer (S : Service) (text : string) : string :=
  str_replace "```" "" (str_replace "```json" "" (str_strip S text)).

(** [metadata] after the [try] block. *)
Definition answer_metadata (S : Service) (answer : ModelAnswer)
    : HandlerError + gmap string JsonValue :=
  match answer with
  | ModelRaised => inl ModelCallFailed
  | ModelSilent => inr default_metadata
  | ModelText text =>
      match json_loads S (clean_answer S text) with
      | Some (JObject fields) => inr fields
      | Some JNotObject => inl AnswerNotAnObject
      | None => inr (<["name" := JString (str_strip S text)]> default_metadata)
      end
  end.

(** The record appended to [response_data]. *)
Definition served_record (entry : RegistryEntry) (metadata : gmap string JsonValue)
    : ServedRecord :=
  mkServedRecord
    (default (default unknown (registered_name entry)) (metadata !! "name"))
    (default unknown (metadata !! "birth_place"))
    (registered_image_url entry).

(** The loop over the characters of the family; [calls] holds the image
    bytes sent to the model so far. *)
Fixpoint describe_characters (S : Service) (files : gmap string string)
    (entries : list RegistryEntry) (calls : list string)
    : (HandlerError + list ServedRecord) * list string :=
  match entries with
  | [] => (inr [], calls)
  | character_data :: rest =>
      let image_path := portrait_path S (registered_image_url character_data) in
      match files !! image_path with
      | None => (inl (MissingFile image_path), calls)
      | Some image_bytes =>
          let calls' := calls ++ [image_bytes] in
          match answer_metadata S (extract S (length calls) image_bytes) with
          | inl e => (inl e, calls')
          | inr metadata =>
              match describe_characters S files rest calls' with
              | (inr records, calls'') =>
                  (inr (served_record character_data metadata :: records), calls'')
              | (inl e, calls'') => (inl e, calls'')
              end
          end
      end
  end.

(** [MCPServer.do_GET]: the reply, and the image bytes sent to the
    model on the way. *)
Definition do_GET (S : Service) (files : gmap string string) (path : string)
    : Reply * list string :=
  if String.prefix "/mcp" path
  then
    match query_family_name S path with
    | Some (String c rest) =>
        let family_name := String c rest in
        match files !! mcp_data_path with
        | None => (HandlerRaised (MissingFile mcp_data_path), [])
        | Some text =>
            match load_registry S text with
            | None => (HandlerRaised RegistryNotJson, [])
            | Some data =>
                match data !! family_name with
                | Some entries =>
                    match describe_characters S files entries [] with
                    | (inr response_data, calls) =>
                        (Replied 200 (JsonBody response_data), calls)
                    | (inl e, calls) => (HandlerRaised e, calls)
                    end
                | None => (Replied 404 (TextBody "Family not found"), [])
                end
            end
        end
    | _ => (Replied 400 (TextBody "Missing family_name parameter"), [])
    end
  else (StaticFile path, []).

(** A service for the Doe family: the registry knows John and Jane, the
    model answers with a JSON object for John and with plain text for
    Jane. *)
Definition doe_entries : list RegistryEntry :=
  [mkRegistryEntry (Some (JString "J. Doe")) (image_url john);
   mkRegistryEntry None (image_url jane)].

Definition doe_registry : gmap string (list RegistryEntry) :=
  <["Doe" := doe_entries]> ∅.

Definition doe_service : Service := {|
  query_family_name path :=
    if String.prefix "/mcp?family_name=" path
    then Some (String.substring 17 (String.length path - 17) path)
    else None;
  load_registry _ := Some doe_registry;
  portrait_path := drop_scheme;
  extract _ image_bytes :=
    if String.eqb image_bytes "jpg:john" then ModelText "{john}" else ModelText "Jane";
  str_strip text := text;
  json_loads text :=
    if String.eqb text "{john}"
    then Some (JObject (<["birth_place" := JString "Springfield"]> ∅))
    else None
|}.

Definition doe_files : gmap string string :=
  <[mcp_data_path := "{...}"]> (fs doe_world).

(** ** Entry point: [main.py]

    The host is the world of the pipeline together with the state of
    the lookup service that [main] starts as a child process. *)




(** ** Deployment: [agent_engine_app.py]

    Of [deploy_agent_engine_app], the choice between updating an agent
    and creating one; of [AgentEngineApp], [register_operations]. *)

Record DeployedAgent : Type := mkDeployedAgent {
  display_name : string;
  resource_name : string
}.

Inductive DeployAction : Type :=
| UpdateAgent (name : string)
| CreateAgent.

Definition matching_agents (existing_agents : list DeployedAgent) (agent_name : string)
    : list DeployedAgent :=
  filter (fun agent => display_name agent = agent_name) existing_agents.

Definition deploy_action (existing_agents : list DeployedAgent) (agent_name : string)
    : DeployAction :=
  match matching_agents existing_agents agent_name with
  | agent :: _ => UpdateAgent (resource_name agent)
  | [] => CreateAgent
  end.

(** [operations[""] = operations.get("", []) + ["register_feedback"]],
    on the operations of the base class. *)
Definition register_operations (operations : gmap string (list string))
    : gmap string (list string) :=
  <["" := default [] (operations !! "") ++ ["register_feedback"]]> operations.

(** Every video job is accepted and reports completion within [fuel]
    refreshes, and a response holds at least one video. *)
Definition videos_complete (E : Env) (fuel : nat) : Prop :=
  forall index prompt location files,
    exists job m,
      generate_videos E index prompt location files = Some job /\
      m <= fuel /\ done (job m) = true /\
      forall k videos, response (job k) = Some videos -> videos <> [].

(** Every video job is accepted and completes within [fuel] refreshes,
    without a response. *)
Definition videos_fail (E : Env) (fuel : nat) : Prop :=
  forall index prompt location files,
    exists job m,
      generate_videos E index prompt location files = Some job /\
      m <= fuel /\ done (job m) = true /\
      forall k, response (job k) = None.

Definition ffmpeg_succeeds (E : Env) : Prop :=
  forall files, ffmpeg_status E ffmpeg_command files = 0%Z.

(** The Doe service with video jobs that end without a response. *)
Definition no_video_env : Env := {|
  requests_get := requests_get doe_env;
  urlparse_path := urlparse_path doe_env;
  generate_content := generate_content doe_env;
  generate_videos _ _ _ _ := Some (fun _ => mkOperation true None);
  operation_repr := operation_repr doe_env;
  ffmpeg_status := ffmpeg_status doe_env;
  ffmpeg_output := ffmpeg_output doe_env
|}.

(** The video jobs submitted among some requests, each with its prompt
    and the location of its start image. *)
Fixpoint video_submissions (requests : list Request) : list (string * string) :=
  match requests with
  | [] => []
  | GenerateVideos prompt location :: rest => (prompt, location) :: video_submissions rest
  | _ :: rest => video_submissions rest
  end.

(** Entries and image pairs taken together by position, the first
    entry being at position [i] of the script: the prompt and the start
    image of each. *)
Fixpoint paired_submissions (i : nat) (entries : list ScriptEntry)
    (pairs : list ImagePair) : list (string * string) :=
  match entries, pairs with
  | scene :: entries', img :: pairs' =>
      ((if (i =? 0)%nat then entry_description scene +:+ pan_instruction
        else entry_description scene),
       start_image_path img)
      :: paired_submissions (S i) entries' pairs'
  | _, _ => []
  end.

(** * Properties *)

(** ** Strings *)

Lemma str_app_assoc (a b c : string) : (a +:+ b) +:+ c = a +:+ b +:+ c.
Proof. induction a as [|x a IH]; [reflexivity | exact (f_equal (String x) IH)]. Qed.

Lemma prefix_app (a b : string) : String.prefix a (a +:+ b) = true.
Proof.
  induction a as [|x a IH]; simpl.
  - by destruct b.
  - destruct (Ascii.ascii_dec x x); [exact IH | congruence].
Qed.

Lemma prefix_split (a b : string) :
  String.prefix a b = true -> exists post, b = a +:+ post.
Proof.
  revert a. induction b as [|y b IH]; intros [|x a] H; simpl in *;
    try discriminate; eauto.
  destruct (Ascii.ascii_dec x y) as [->|]; [|discriminate].
  destruct (IH a H) as [post ->]. by exists post.
Qed.

Lemma str_in_unfold (needle hay : string) :
  str_in needle hay =
  if String.prefix needle hay then true
  else match hay with
       | EmptyString => false
       | String _ rest => str_in needle rest
       end.
Proof. by destruct hay. Qed.

(** [str_in] finds every occurrence ... *)
Lemma str_in_app (pre x post : string) : str_in x (pre +:+ x +:+ post) = true.
Proof.
  induction pre as [|c pre IH].
  - change (str_in x (x +:+ post) = true). rewrite str_in_unfold.
    by rewrite (prefix_app x post).
  - change (str_in x (String c (pre +:+ x +:+ post)) = true).
    rewrite str_in_unfold.
    by destruct (String.prefix x (String c (pre +:+ x +:+ post))).
Qed.

(** ... and nothing else. *)
Lemma str_in_split (x s : string) :
  str_in x s = true -> exists pre post, s = pre +:+ x +:+ post.
Proof.
  induction s as [|c s IH]; rewrite str_in_unfold;
    destruct (String.prefix x _) eqn:Hp; intros H; try discriminate.
  - apply prefix_split in Hp as [post ->]. by exists "", post.
  - apply prefix_split in Hp as [post ->]. by exists "", post.
  - destruct (IH H) as (pre & post & ->). by exists (String c pre), post.
Qed.

(** ** Narrative builder *)

(** C2. For every input with at least two character records,
    [create_story] returns, and what it returns is exactly four scenes
    numbered 1, 2, 3, 4 in this order. *)
Theorem create_story_four_scenes (family_history : FamilyHistory) (w : World) :
  2 <= length (records family_history) ->
  exists story w',
    create_story family_history w = (Ok story, w') /\
    map scene_number (scenes story) = [1; 2; 3; 4]%Z.
Proof.
  destruct family_history as [[|r0 [|r1 rest]]]; simpl; intros H; try lia.
  eexists _, _. split; reflexivity.
Qed.

Lemma create_story_four_scenes_witness :
  exists story w',
    create_story (mkFamilyHistory [john; jane]) empty_world = (Ok story, w') /\
    map scene_number (scenes story) = [1; 2; 3; 4]%Z.
Proof.
  apply (create_story_four_scenes (mkFamilyHistory [john; jane]) empty_world).
  simpl. lia.
Defined.

(** C3. When the first record has name [n0] and birth place [p0] and
    the second has name [n1] and birth place [p1], the description of
    scene 1 contains "Meet n0, born in p0" and "n1, born in p1". *)
Theorem create_story_scene_1 (family_history : FamilyHistory) (w : World)
    (r0 r1 : CharacterRecord) :
  records family_history !! 0 = Some r0 ->
  records family_history !! 1 = Some r1 ->
  exists story w' scene,
    create_story family_history w = (Ok story, w') /\
    scenes story !! 0 = Some scene /\
    scene_number scene = 1%Z /\
    str_in ("Meet " +:+ name r0 +:+ ", born in " +:+ birth_place r0)
           (description scene) = true /\
    str_in (name r1 +:+ ", born in " +:+ birth_place r1)
           (description scene) = true.
Proof.
  destruct family_history as [[|x0 [|x1 rest]]]; simpl; intros H0 H1;
    try discriminate.
  injection H0 as ->. injection H1 as ->.
  eexists _, _, _. split; [reflexivity|]. split; [reflexivity|].
  split; [reflexivity|]. cbn [description]. split.
  - set (post := ", a man of strength and skill. And this is " +:+ name r1
                 +:+ ", born in " +:+ birth_place r1
                 +:+ ", a woman of knowledge and grace.").
    replace ("Narrator: Meet " +:+ name r0 +:+ ", born in " +:+ birth_place r0 +:+ post)
      with ("Narrator: " +:+ ("Meet " +:+ name r0 +:+ ", born in " +:+ birth_place r0)
            +:+ post).
    + apply str_in_app.
    + by rewrite !str_app_assoc.
  - set (pre := "Narrator: Meet " +:+ name r0 +:+ ", born in " +:+ birth_place r0
                +:+ ", a man of strength and skill. And this is ").
    set (post := ", a woman of knowledge and grace.").
    replace ("Narrator: Meet " +:+ name r0 +:+ ", born in " +:+ birth_place r0
             +:+ ", a man of strength and skill. And this is " +:+ name r1
             +:+ ", born in " +:+ birth_place r1 +:+ post)
      with (pre +:+ (name r1 +:+ ", born in " +:+ birth_place r1) +:+ post).
    + apply str_in_app.
    + subst pre. by rewrite !str_app_assoc.
Qed.

(** The Doe family of the specification: John of Springfield and Jane
    of Rivertown. *)
Lemma create_story_scene_1_witness :
  exists story w' scene,
    create_story (mkFamilyHistory [john; jane]) empty_world = (Ok story, w') /\
    scenes story !! 0 = Some scene /\
    scene_number scene = 1%Z /\
    str_in "Meet John, born in Springfield" (description scene) = true /\
    str_in "Jane, born in Rivertown" (description scene) = true.
Proof.
  apply (create_story_scene_1 (mkFamilyHistory [john; jane]) empty_world john jane);
    reflexivity.
Defined.

(** ** Scene scripter *)

(** C4. [create_script] always returns; its script is as long as the
    scene sequence, each entry carries the scene number and the
    description of the scene at its position, and every dialogue is the
    one placeholder. *)
Theorem create_script_one_to_one (story : Story) (w : World) :
  exists sc w',
    create_script story w = (Ok sc, w') /\
    length (script sc) = length (scenes story) /\
    (forall i scene, scenes story !! i = Some scene ->
       exists entry,
         script sc !! i = Some entry /\
         entry_scene_number entry = scene_number scene /\
         entry_description entry = description scene) /\
    (forall entry, entry ∈ script sc -> dialogue entry = placeholder_dialogue).
Proof.
  eexists _, _. split; [reflexivity|]. cbn [script]. split; [|split].
  - apply length_map.
  - intros i scene Hi. exists (script_entry scene). split; [|done].
    by rewrite list_lookup_fmap, Hi.
  - intros entry Hin. apply list_elem_of_fmap in Hin as (scene & -> & _).
    reflexivity.
Qed.

(** ** Metadata fetcher *)

Lemma get_character_images_200 (E : Env) (family_name : string) (w : World) :
  status_code (requests_get E (lookup_url family_name)) = 200%Z ->
  get_character_images E family_name w =
    (Ok (mkCharacterData (Some (json (requests_get E (lookup_url family_name)))) None),
     after_fetch family_name w).
Proof.
  intros H. unfold get_character_images, bind, print, send, after_fetch.
  simpl. by rewrite H.
Qed.

Lemma get_character_images_not_200 (E : Env) (family_name : string) (w : World) :
  status_code (requests_get E (lookup_url family_name)) <> 200%Z ->
  get_character_images E family_name w =
    (Ok (mkCharacterData None
           (Some (fetch_error_message
                    (status_code (requests_get E (lookup_url family_name)))))),
     after_fetch family_name w).
Proof.
  intros H. unfold get_character_images, bind, print, send, after_fetch.
  simpl. apply Z.eqb_neq in H. by rewrite H.
Qed.

(** C6. Given the response of the lookup service, a 200 yields the dict
    with the one key "characters" bound to the decoded body; any other
    status yields the dict with the one key "error" bound to the
    message; in both cases the dict is returned, and nothing is
    raised. *)
Theorem get_character_images_shapes (E : Env) (family_name : string) (w : World) :
  let response := requests_get E (lookup_url family_name) in
  (status_code response = 200%Z ->
   get_character_images E family_name w =
     (Ok (mkCharacterData (Some (json response)) None), after_fetch family_name w)) /\
  (status_code response <> 200%Z ->
   get_character_images E family_name w =
     (Ok (mkCharacterData None
            (Some ("Failed to fetch character images: " +:+ pretty (status_code response)))),
      after_fetch family_name w)).
Proof.
  intros response. split.
  - apply get_character_images_200.
  - apply get_character_images_not_200.
Qed.

Lemma get_character_images_shapes_witness :
  get_character_images doe_env "Doe" empty_world =
    (Ok (mkCharacterData (Some [john; jane]) None), after_fetch "Doe" empty_world) /\
  get_character_images doe_env "Smith" empty_world =
    (Ok (mkCharacterData None (Some "Failed to fetch character images: 404")),
     after_fetch "Smith" empty_world).
Proof.
  split.
  - apply (proj1 (get_character_images_shapes doe_env "Doe" empty_world)).
    reflexivity.
  - apply (proj2 (get_character_images_shapes doe_env "Smith" empty_world)).
    vm_compute. discriminate.
Defined.

(** ** Orchestrator *)

Lemma orchestrator_stops_on_error (E : Env) (fuel : nat) (family_name : string)
    (w : World) :
  status_code (requests_get E (lookup_url family_name)) <> 200%Z ->
  generate_family_story_video E fuel family_name w =
    (Raise (KeyError "characters"), after_failed_fetch family_name w).
Proof.
  intros H. unfold generate_family_story_video, bind at 1. simpl.
  unfold bind at 1. by rewrite (get_character_images_not_200 E family_name _ H).
Qed.

(** C7, as the code has it.  On the error shape the orchestrator takes
    no branch and does not return the error value: the lookup of the
    key "characters" raises [KeyError] with only the fetch done, so it
    returns nothing at all; and whenever it does return, the fetcher
    had answered with the "characters" shape. *)
Theorem generate_family_story_video_error_shape (E : Env) (fuel : nat)
    (family_name : string) (w : World) :
  let response := requests_get E (lookup_url family_name) in
  (status_code response <> 200%Z ->
   generate_family_story_video E fuel family_name w =
     (Raise (KeyError "characters"), after_failed_fetch family_name w)) /\
  (forall video_path w',
     generate_family_story_video E fuel family_name w = (Ok video_path, w') ->
     status_code response = 200%Z).
Proof.
  intros response. split; [apply orchestrator_stops_on_error|].
  intros video_path w' Hrun.
  destruct (decide (status_code response = 200%Z)) as [|Hs]; [done|].
  rewrite (orchestrator_stops_on_error E fuel family_name w Hs) in Hrun.
  discriminate.
Qed.

Lemma generate_family_story_video_error_shape_witness :
  generate_family_story_video doe_env 5 "Smith" doe_world =
    (Raise (KeyError "characters"), after_failed_fetch "Smith" doe_world).
Proof.
  apply (proj1 (generate_family_story_video_error_shape doe_env 5 "Smith" doe_world)).
  vm_compute. discriminate.
Defined.

(** C7, as it is worded, fails: for a family the service does not know
    the fetcher returns the error shape, and the orchestrator raises
    before the Narrative Builder is entered. *)
Lemma smith_stops_before_narrative_builder :
  fst (get_character_images doe_env "Smith" doe_world) =
    Ok (mkCharacterData None (Some "Failed to fetch character images: 404")) /\
  fst (generate_family_story_video doe_env 5 "Smith" doe_world) =
    Raise (KeyError "characters") /\
  ~ reaches_narrative_builder (snd (generate_family_story_video doe_env 5 "Smith" doe_world)).
Proof.
  split; [reflexivity|]. split; [reflexivity|].
  unfold reaches_narrative_builder.
  rewrite (orchestrator_stops_on_error doe_env 5 "Smith" doe_world);
    [|vm_compute; discriminate].
  simpl. intros H.
  repeat (apply elem_of_cons in H as [H|H]; [discriminate H|]).
  by apply elem_of_nil in H.
Qed.

(** ** Video synthesizer *)

(** C9. [create_video] does not look at its story: with the script and
    the images fixed, any two stories give the same result in the same
    final world, the requests sent included. *)
Theorem create_video_ignores_story (E : Env) (fuel : nat) (story1 story2 : Story)
    (sc : Script) (imgs : Images) (w : World) :
  create_video E fuel story1 sc imgs w = create_video E fuel story2 sc imgs w.
Proof. reflexivity. Qed.

(** *** The poll loop *)


Lemma poll_unfold (fuel : nat) (job : nat -> Operation) (k : nat) :
  poll fuel job k =
  if done (job k) then ret (job k)
  else
    match fuel with
    | O => fun w => (OutOfFuel, w)
    | S fuel' =>
        sleep poll_interval ;;
        send (OperationsGet (S k)) ;;
        poll fuel' job (S k)
    end.
Proof. by destruct fuel. Qed.

(** The loop leaves at the first refresh that reports completion. *)
Lemma poll_first_done (job : nat -> Operation) (n : nat) :
  forall k fuel w,
    (forall j, j < n -> done (job (k + j)) = false) ->
    done (job (k + n)) = true ->
    n <= fuel ->
    poll fuel job k w = (Ok (job (k + n)), after_polls n k w).
Proof.
  induction n as [|n IH]; intros k fuel w Hbefore Hdone Hfuel.
  - rewrite poll_unfold. rewrite Nat.add_0_r in *. by rewrite Hdone.
  - destruct fuel as [|fuel]; [lia|].
    rewrite poll_unfold.
    assert (Hk : done (job k) = false).
    { rewrite <- (Nat.add_0_r k). apply Hbefore. lia. }
    rewrite Hk. unfold bind, sleep, send. simpl.
    replace (k + S n) with (S k + n) in * by lia.
    apply IH; [|done|lia].
    intros j Hj. replace (S k + j) with (k + S j) by lia. apply Hbefore. lia.
Qed.


Lemma first_done (job : nat -> Operation) (n : nat) :
  forall k, done (job (k + n)) = true ->
  exists m, m <= n /\ (forall j, j < m -> done (job (k + j)) = false) /\
            done (job (k + m)) = true.
Proof.
  induction n as [|n IH]; intros k Hdone.
  - exists 0. split; [lia|]. split; [lia|done].
  - destruct (done (job k)) eqn:Hk.
    + exists 0. rewrite Nat.add_0_r. split; [lia|]. split; [lia|done].
    + replace (k + S n) with (S k + n) in Hdone by lia.
      destruct (IH (S k) Hdone) as (m & Hm & Hbefore & Hat).
      exists (S m). split; [lia|]. split.
      * intros [|j] Hj; [by rewrite Nat.add_0_r|].
        replace (k + S j) with (S k + j) by lia. apply Hbefore. lia.
      * by replace (k + S m) with (S k + m) by lia.
Qed.

Lemma bind_step {A B} (c : M A) (k : A -> M B) (w w1 : World) (a : A) :
  c w = (Ok a, w1) -> bind c k w = k a w1.
Proof. unfold bind. by intros ->. Qed.






(** ** Image synthesizer *)

Lemma bind_finishes {A B} (c : M A) (k : A -> M B) (w : World) :
  finishes (c w) -> (forall a w', finishes (k a w')) -> finishes (bind c k w).
Proof.
  unfold finishes, bind. intros Hc Hk.
  destruct (c w) as [[a| |] w']; simpl in *; [apply Hk|discriminate|done].
Qed.

Lemma getitem_finishes {A} (l : list A) (i : nat) (w : World) :
  finishes (getitem l i w).
Proof. unfold finishes, getitem. by destruct (l !! i). Qed.

Lemma generate_image_run (E : Env) (parts : list string) (prompt output_path : string)
    (w : World) :
  exists generated data w',
    generate_image E parts prompt output_path w = (Ok generated, w') /\
    fs w' = <[output_path := data]> (fs w) /\
    sent w' = sent w ++ [GenerateContent parts prompt].
Proof.
  unfold generate_image, bind at 1, call_generate_content.
  destruct (generate_content E _ parts prompt) as [msg|items].
  - by eexists _, _, _.
  - destruct (first_inline_data items); by eexists _, _, _.
Qed.

Lemma read_file_finishes (path : string) (w : World) : finishes (read_file path w).
Proof. unfold finishes, read_file. by destruct (fs w !! path). Qed.

Lemma collect_character_parts_finishes (E : Env) (base_prompt : string)
    (cs : list CharacterRecord) :
  forall w, finishes (collect_character_parts E base_prompt cs w).
Proof.
  induction cs as [|c cs IH]; intros w; simpl; [done|].
  destruct (str_in (name c) base_prompt); [|apply IH].
  apply bind_finishes; [apply read_file_finishes|].
  intros data w'. apply bind_finishes; [apply IH|done].
Qed.

Lemma generate_image_finishes (E : Env) (parts : list string)
    (prompt output_path : string) (w : World) :
  finishes (generate_image E parts prompt output_path w).
Proof.
  destruct (generate_image_run E parts prompt output_path w)
    as (generated & data & w' & -> & _). done.
Qed.

Lemma getitem_characters_finishes (character_images : CharacterData) (w : World) :
  finishes (getitem_characters character_images w).
Proof. unfold finishes, getitem_characters. by destruct (characters _). Qed.

Lemma scene_images_finishes (E : Env) (character_images : CharacterData)
    (scene : ScriptEntry) (w : World) :
  finishes (scene_images E character_images scene w).
Proof.
  unfold scene_images. destruct (entry_scene_number scene =? 1)%Z.
  - repeat (apply bind_finishes;
            [first [apply getitem_characters_finishes | apply getitem_finishes]|];
            intros ? ?).
    done.
  - apply bind_finishes.
    + destruct (characters character_images);
        [apply collect_character_parts_finishes|done].
    + intros parts w1.
      apply bind_finishes; [apply generate_image_finishes|]. intros _ w2.
      apply bind_finishes; [apply generate_image_finishes|]. done.
Qed.

(** The scene-1 branch, when the two portraits are there: the pair is
    made of their paths and the world is left as it was. *)
Lemma scene_images_first_scene (E : Env) (character_images : CharacterData)
    (cs : list CharacterRecord) (first second : CharacterRecord)
    (scene : ScriptEntry) (w : World) :
  characters character_images = Some cs ->
  cs !! 0 = Some first ->
  cs !! 1 = Some second ->
  entry_scene_number scene = 1%Z ->
  scene_images E character_images scene w =
    (Ok (mkImagePair 1 (urlparse_path E (image_url first))
                       (urlparse_path E (image_url second))), w).
Proof.
  intros Hcs H0 H1 Hn.
  unfold scene_images, bind, getitem_characters, getitem, ret.
  rewrite Hn, Hcs. simpl. by rewrite H0, H1.
Qed.

(** The scene-1 branch with fewer than two characters. *)
Lemma scene_images_first_scene_short (E : Env) (character_images : CharacterData)
    (cs : list CharacterRecord) (scene : ScriptEntry) (w : World) :
  characters character_images = Some cs ->
  length cs < 2 ->
  entry_scene_number scene = 1%Z ->
  scene_images E character_images scene w = (Raise IndexError, w).
Proof.
  intros Hcs Hlen Hn.
  unfold scene_images, bind, getitem_characters, getitem, ret, raise.
  rewrite Hn, Hcs. simpl.
  destruct cs as [|c0 [|c1 rest]]; simpl in *; [done|done|lia].
Qed.

Lemma collect_character_parts_readable (E : Env) (base_prompt : string)
    (cs : list CharacterRecord) (w : World) :
  (forall character, character ∈ cs ->
     str_in (name character) base_prompt = true ->
     is_Some (fs w !! urlparse_path E (image_url character))) ->
  exists parts, collect_character_parts E base_prompt cs w = (Ok parts, w).
Proof.
  induction cs as [|c cs IH]; intros Hread; simpl; [by eexists|].
  destruct IH as [parts Hparts].
  { intros character Hin. apply Hread. by right. }
  destruct (str_in (name c) base_prompt) eqn:Hname; [|by eexists].
  destruct (Hread c) as [data Hdata]; [by left|done|].
  unfold bind, read_file. rewrite Hdata, Hparts. by eexists.
Qed.

(** The other branch, when the portraits it opens are there: two
    generation requests, and files are only added or rewritten. *)
Lemma scene_images_generated (E : Env) (character_images : CharacterData)
    (cs : list CharacterRecord) (scene : ScriptEntry) (w : World) :
  characters character_images = Some cs ->
  entry_scene_number scene <> 1%Z ->
  (forall character, character ∈ cs ->
     str_in (name character) (base_prompt_of scene) = true ->
     is_Some (fs w !! urlparse_path E (image_url character))) ->
  exists pair w',
    scene_images E character_images scene w = (Ok pair, w') /\
    pair_scene_number pair = entry_scene_number scene /\
    length (sent w') = length (sent w) + 2 /\
    (forall path, is_Some (fs w !! path) -> is_Some (fs w' !! path)).
Proof.
  intros Hcs Hn Hread. unfold scene_images.
  apply Z.eqb_neq in Hn. rewrite Hn, Hcs.
  destruct (collect_character_parts_readable E _ cs w Hread) as [parts Hparts].
  unfold bind at 1. rewrite Hparts.
  set (before := "Before the action: " +:+ _).
  set (after := if (entry_scene_number scene =? 4)%Z then _ else _).
  destruct (generate_image_run E parts before
              (scene_image_path (entry_scene_number scene) "start") w)
    as (g1 & d1 & w1 & Hrun1 & Hfs1 & Hsent1).
  destruct (generate_image_run E parts after
              (scene_image_path (entry_scene_number scene) "end") w1)
    as (g2 & d2 & w2 & Hrun2 & Hfs2 & Hsent2).
  unfold bind. rewrite Hrun1, Hrun2. eexists _, w2.
  split; [reflexivity|]. split; [reflexivity|]. split.
  - rewrite Hsent2, Hsent1, !length_app. simpl. lia.
  - intros path Hpath. rewrite Hfs2, Hfs1.
    rewrite !lookup_insert. repeat case_decide; eauto.
Qed.

Lemma generated_scenes_cons (scene : ScriptEntry) (entries : list ScriptEntry) :
  generated_scenes (scene :: entries) =
  if decide (entry_scene_number scene = 1%Z)
  then generated_scenes entries
  else scene :: generated_scenes entries.
Proof.
  unfold generated_scenes. rewrite filter_cons.
  destruct (decide (entry_scene_number scene = 1%Z));
    destruct (decide (entry_scene_number scene <> 1%Z)); done.
Qed.

Lemma for_each_scene_readable (E : Env) (character_images : CharacterData)
    (cs : list CharacterRecord) (first second : CharacterRecord) :
  characters character_images = Some cs ->
  cs !! 0 = Some first ->
  cs !! 1 = Some second ->
  forall entries w,
    portraits_readable E cs entries (fs w) ->
    exists pairs w',
      for_each_scene E character_images entries w = (Ok pairs, w') /\
      map pair_scene_number pairs = map entry_scene_number entries /\
      (forall i entry,
         entries !! i = Some entry -> entry_scene_number entry = 1%Z ->
         pairs !! i = Some (mkImagePair 1 (urlparse_path E (image_url first))
                                          (urlparse_path E (image_url second)))) /\
      length (sent w') = length (sent w) + 2 * length (generated_scenes entries).
Proof.
  intros Hcs H0 H1. unfold portraits_readable.
  induction entries as [|scene entries IH]; intros w Hread.
  - eexists [], w. simpl. split; [done|]. split; [done|]. split; [done|lia].
  - rewrite generated_scenes_cons. simpl.
    destruct (decide (entry_scene_number scene = 1%Z)) as [Hn|Hn].
    + destruct (IH w) as (pairs & w' & Hrun & Hnums & Hfirst & Hsent).
      { intros sc ch Hin. apply (Hread sc ch). by right. }
      unfold bind.
      rewrite (scene_images_first_scene E _ cs first second scene w Hcs H0 H1 Hn).
      rewrite Hrun. eexists _, w'. split; [reflexivity|]. simpl.
      split; [by rewrite Hn, Hnums|]. split; [|done].
      intros [|i] entry Hi Hone; simpl in *; [done|by eapply Hfirst].
    + destruct (scene_images_generated E _ cs scene w Hcs Hn)
        as (pair & w1 & Hrun1 & Hnum & Hsent1 & Hfs1).
      { intros ch Hin. apply (Hread scene ch); [by left|done|done]. }
      destruct (IH w1) as (pairs & w' & Hrun & Hnums & Hfirst & Hsent).
      { intros sc ch Hin Hsc Hch Hname. apply Hfs1.
        apply (Hread sc ch); [by right|done..]. }
      unfold bind. rewrite Hrun1, Hrun. eexists _, w'.
      split; [reflexivity|]. simpl. split; [by rewrite Hnum, Hnums|]. split.
      * intros [|i] entry Hi Hone; simpl in *; [|by eapply Hfirst].
        injection Hi as ->. done.
      * rewrite Hsent, Hsent1. lia.
Qed.

Lemma for_each_scene_short (E : Env) (character_images : CharacterData)
    (cs : list CharacterRecord) :
  characters character_images = Some cs ->
  length cs < 2 ->
  forall entries w,
    (exists entry, entry ∈ entries /\ entry_scene_number entry = 1%Z) ->
    exists e w', for_each_scene E character_images entries w = (Raise e, w').
Proof.
  intros Hcs Hlen. induction entries as [|scene entries IH]; intros w (entry & Hin & Hone).
  - by apply elem_of_nil in Hin.
  - simpl. unfold bind at 1.
    destruct (decide (entry_scene_number scene = 1%Z)) as [Hn|Hn].
    + rewrite (scene_images_first_scene_short E _ cs scene w Hcs Hlen Hn).
      by eexists _, _.
    + pose proof (scene_images_finishes E character_images scene w) as Hfin.
      destruct (scene_images E character_images scene w) as [[pair|e|] w1];
        [|by eexists _, _|by destruct Hfin].
      destruct (IH w1) as (e & w' & Hrun).
      { exists entry. split; [|done].
        apply elem_of_cons in Hin as [->|Hin]; done. }
      unfold bind. rewrite Hrun. by eexists _, _.
Qed.

(** C5, as the code has it.  With at least two character records, and
    with every portrait readable that the scan for reference images
    opens, [create_images] returns one pair per entry, in order and
    with the scene number of the entry at the same position; at an
    entry of scene 1 the pair holds the paths of the first and second
    portraits, and that scene leaves the world as it was: no request,
    no file.  Two generations are requested for every other entry. *)
Theorem create_images_one_pair_per_entry (E : Env) (sc : Script)
    (character_images : CharacterData) (cs : list CharacterRecord) (w : World) :
  characters character_images = Some cs ->
  2 <= length cs ->
  portraits_readable E cs (script sc) (fs w) ->
  exists first second imgs w',
    cs !! 0 = Some first /\ cs !! 1 = Some second /\
    create_images E sc character_images w = (Ok imgs, w') /\
    map pair_scene_number (images imgs) = map entry_scene_number (script sc) /\
    (forall i entry,
       script sc !! i = Some entry -> entry_scene_number entry = 1%Z ->
       images imgs !! i =
         Some (mkImagePair 1 (urlparse_path E (image_url first))
                             (urlparse_path E (image_url second))) /\
       forall w1, scene_images E character_images entry w1 =
         (Ok (mkImagePair 1 (urlparse_path E (image_url first))
                            (urlparse_path E (image_url second))), w1)) /\
    length (sent w') = length (sent w) + 2 * length (generated_scenes (script sc)).
Proof.
  intros Hcs Hlen Hread.
  destruct cs as [|first [|second rest]] eqn:Heq; simpl in Hlen; try lia.
  rewrite <- Heq in *.
  assert (H0 : cs !! 0 = Some first) by by rewrite Heq.
  assert (H1 : cs !! 1 = Some second) by by rewrite Heq.
  destruct (for_each_scene_readable E character_images cs first second Hcs H0 H1
              (script sc) (mkWorld (fs w) (stdout w ++ ["Creating images..."])
                                   (sent w) (clock w)) Hread)
    as (pairs & w' & Hrun & Hnums & Hfirst & Hsent).
  exists first, second, (mkImages pairs), w'.
  split; [done|]. split; [done|]. split.
  { unfold create_images, bind, print. by rewrite Hrun. }
  split; [done|]. split; [|done].
  intros i entry Hi Hone. split; [by eapply Hfirst|].
  intros w1. by apply (scene_images_first_scene E _ cs).
Qed.

Lemma doe_portraits_readable (entries : list ScriptEntry) :
  portraits_readable doe_env [john; jane] entries (fs doe_world).
Proof.
  intros scene character _ _ Hin _.
  apply elem_of_cons in Hin as [->|Hin]; [by eexists|].
  apply elem_of_cons in Hin as [->|Hin]; [by eexists|].
  by apply elem_of_nil in Hin.
Qed.

Lemma create_images_one_pair_per_entry_witness :
  exists first second imgs w',
    [john; jane] !! 0 = Some first /\ [john; jane] !! 1 = Some second /\
    create_images doe_env doe_script doe_characters doe_world = (Ok imgs, w') /\
    map pair_scene_number (images imgs) = map entry_scene_number (script doe_script) /\
    (forall i entry,
       script doe_script !! i = Some entry -> entry_scene_number entry = 1%Z ->
       images imgs !! i =
         Some (mkImagePair 1 (urlparse_path doe_env (image_url first))
                             (urlparse_path doe_env (image_url second))) /\
       forall w1, scene_images doe_env doe_characters entry w1 =
         (Ok (mkImagePair 1 (urlparse_path doe_env (image_url first))
                            (urlparse_path doe_env (image_url second))), w1)) /\
    length (sent w') =
      length (sent doe_world) + 2 * length (generated_scenes (script doe_script)).
Proof.
  apply (create_images_one_pair_per_entry doe_env doe_script doe_characters
           [john; jane] doe_world).
  - reflexivity.
  - simpl. lia.
  - apply doe_portraits_readable.
Defined.

(** C5, as it is worded, fails: with the two records of the Doe family
    supplied and their portraits absent from the disk, the scan for
    scene 2 opens the portrait of John and [create_images] raises. *)
Lemma doe_portraits_missing :
  characters doe_characters = Some [john; jane] /\
  2 <= length [john; jane] /\
  fst (create_images doe_env doe_script doe_characters empty_world) =
    Raise (FileNotFoundError "/home/doe/john.jpg") /\
  ~ exists imgs w',
      create_images doe_env doe_script doe_characters empty_world = (Ok imgs, w').
Proof.
  split; [reflexivity|]. split; [simpl; lia|].
  assert (Hrun : fst (create_images doe_env doe_script doe_characters empty_world) =
                 Raise (FileNotFoundError "/home/doe/john.jpg")) by by vm_compute.
  split; [exact Hrun|].
  intros (imgs & w' & Hok). rewrite Hok in Hrun. discriminate.
Qed.

(** C10. With fewer than two character records, the branch of scene 1
    indexes outside the list and raises [IndexError], and
    [create_images] raises on every script that has an entry of scene
    1; so on such a script a return means there were two records. *)
Theorem create_images_needs_two_characters (E : Env) (sc : Script)
    (character_images : CharacterData) (cs : list CharacterRecord) (w : World) :
  characters character_images = Some cs ->
  (exists entry, entry ∈ script sc /\ entry_scene_number entry = 1%Z) ->
  (length cs < 2 ->
   (forall entry w1,
      entry_scene_number entry = 1%Z ->
      scene_images E character_images entry w1 = (Raise IndexError, w1)) /\
   exists e w', create_images E sc character_images w = (Raise e, w')) /\
  (forall imgs w',
     create_images E sc character_images w = (Ok imgs, w') -> 2 <= length cs).
Proof.
  intros Hcs Hone.
  assert (Hshort : length cs < 2 ->
    exists e w', create_images E sc character_images w = (Raise e, w')).
  { intros Hlen.
    destruct (for_each_scene_short E character_images cs Hcs Hlen (script sc)
                (mkWorld (fs w) (stdout w ++ ["Creating images..."])
                         (sent w) (clock w)) Hone) as (e & w' & Hrun).
    exists e, w'. unfold create_images, bind, print. by rewrite Hrun. }
  split.
  - intros Hlen. split; [|by apply Hshort].
    intros entry w1 Hn. by apply (scene_images_first_scene_short E _ cs).
  - intros imgs w' Hok.
    destruct (decide (length cs < 2)) as [Hlen|]; [|lia].
    destruct (Hshort Hlen) as (e & w1 & Hrun). rewrite Hrun in Hok. discriminate.
Qed.

Lemma create_images_needs_two_characters_witness :
  (forall entry w1,
     entry_scene_number entry = 1%Z ->
     scene_images doe_env john_alone entry w1 = (Raise IndexError, w1)) /\
  exists e w', create_images doe_env doe_script john_alone doe_world = (Raise e, w').
Proof.
  apply (create_images_needs_two_characters doe_env doe_script john_alone
           [john] doe_world).
  - reflexivity.
  - eexists. split; [apply list_elem_of_lookup; exists 0; reflexivity|reflexivity].
  - simpl. lia.
Defined.

(** ** Video synthesizer: the clips and the final file *)

Lemma str_length_app (a b : string) :
  String.length (a +:+ b) = String.length a + String.length b.
Proof. induction a as [|x a IH]; [done|exact (f_equal S IH)]. Qed.

Lemma str_app_inj_r (a b c : string) : a +:+ c = b +:+ c -> a = b.
Proof.
  revert b. induction a as [|x a IH]; intros [|y b] H.
  - done.
  - apply (f_equal String.length) in H.
    rewrite (str_length_app (String y b) c) in H.
    change (String.length c = S (String.length b) + String.length c) in H. lia.
  - apply (f_equal String.length) in H.
    rewrite (str_length_app (String x a) c) in H.
    change (S (String.length a) + String.length c = String.length c) in H. lia.
  - injection H as -> H. by rewrite (IH b H).
Qed.

Lemma path_join_inj (dir a b : string) : path_join dir a = path_join dir b -> a = b.
Proof.
  unfold path_join. intros H. apply String.app_inj in H.
  by apply (String.app_inj "/") in H.
Qed.

Lemma clip_path_inj (i j : nat) : clip_path i = clip_path j -> i = j.
Proof.
  unfold clip_path. intros H. apply path_join_inj in H.
  apply (String.app_inj "scene_") in H. apply str_app_inj_r in H.
  apply pretty_nat_inj in H. lia.
Qed.

Lemma clip_path_not_final (i : nat) : clip_path i <> final_video_path.
Proof. intros H. apply path_join_inj in H. discriminate H. Qed.

Lemma clip_path_not_file_list (i : nat) : clip_path i <> file_list_path.
Proof. intros H. apply path_join_inj in H. discriminate H. Qed.

Lemma final_not_file_list : final_video_path <> file_list_path.
Proof. intros H. apply path_join_inj in H. discriminate H. Qed.

(** The poll loop touches no file. *)
Lemma poll_fs (fuel : nat) (job : nat -> Operation) :
  forall k w, fs (snd (poll fuel job k w)) = fs w.
Proof.
  induction fuel as [|fuel IH]; intros k w; rewrite poll_unfold;
    destruct (done (job k)); try done.
  unfold bind, sleep, send. simpl. by rewrite IH.
Qed.

Lemma bind_ok {A B} (c : M A) (k : A -> M B) (w w' : World) (b : B) :
  bind c k w = (Ok b, w') ->
  exists a w1, c w = (Ok a, w1) /\ k a w1 = (Ok b, w').
Proof.
  unfold bind. destruct (c w) as [[a| |] w1]; try discriminate. eauto.
Qed.

Lemma getitem_ok {A} (l : list A) (i : nat) (w w' : World) (a : A) :
  getitem l i w = (Ok a, w') -> l !! i = Some a /\ w' = w.
Proof.
  unfold getitem. destruct (l !! i); [|discriminate]. by intros [= -> ->].
Qed.

Lemma call_generate_videos_ok (E : Env) (prompt image_location : string)
    (w w' : World) (job : nat -> Operation) :
  call_generate_videos E prompt image_location w = (Ok job, w') -> fs w' = fs w.
Proof.
  unfold call_generate_videos.
  destruct (generate_videos E _ prompt image_location (fs w)); [|discriminate].
  by intros [= _ <-].
Qed.

Ltac bind_inv H x w1 Hx :=
  apply bind_ok in H as (x & w1 & Hx & H).

(** A scene either adds no clip and no file, or writes its clip. *)
Lemma scene_clip_run (E : Env) (fuel : nat) (imgs : Images) (i : nat)
    (scene : ScriptEntry) (w w' : World) (clip : option string) :
  scene_clip E fuel imgs i scene w = (Ok clip, w') ->
  (clip = None /\ fs w' = fs w) \/
  (exists video_data,
     clip = Some (clip_path i) /\ fs w' = <[clip_path i := video_data]> (fs w)).
Proof.
  unfold scene_clip. intros H.
  bind_inv H u w1 Hprint. injection Hprint as _ <-.
  bind_inv H img w2 Himg. apply getitem_ok in Himg as [_ ->].
  bind_inv H img' w3 Himg'. apply getitem_ok in Himg' as [_ ->].
  bind_inv H job w4 Hjob. apply call_generate_videos_ok in Hjob. simpl in Hjob.
  bind_inv H operation w5 Hpoll.
  assert (Hfs : fs w5 = fs w).
  { rewrite <- Hjob. pose proof (poll_fs fuel job 0 w4) as Hp.
    by rewrite Hpoll in Hp. }
  destruct (response operation) as [videos|].
  - bind_inv H video_data w6 Hdata. apply getitem_ok in Hdata as [_ ->].
    bind_inv H u' w7 Hwrite. injection Hwrite as _ <-.
    injection H as <- <-. right. exists video_data. simpl. by rewrite Hfs.
  - bind_inv H u1 w6 Hp1. injection Hp1 as _ <-.
    bind_inv H u2 w7 Hp2. injection Hp2 as _ <-.
    injection H as <- <-. left. done.
Qed.

Lemma clips_on_disk_snoc (i : nat) (video_clips : list string)
    (files : gmap string string) (video_data : string) :
  clips_on_disk i video_clips files ->
  clips_on_disk (S i) (video_clips ++ [clip_path i])
    (<[clip_path i := video_data]> files).
Proof.
  intros [Hnodup Hclips]. split.
  - apply NoDup_app. split; [done|]. split; [|apply NoDup_singleton].
    intros clip Hin Hlast. apply list_elem_of_singleton in Hlast as ->.
    destruct (Hclips _ Hin) as [(j & Hj & Heq) _].
    apply clip_path_inj in Heq. lia.
  - intros clip Hin. apply elem_of_app in Hin as [Hin|Hin].
    + destruct (Hclips _ Hin) as [(j & Hj & ->) Hfile]. split.
      * exists j. split; [lia|done].
      * rewrite lookup_insert. case_decide; eauto.
    + apply list_elem_of_singleton in Hin as ->. split.
      * exists i. split; [lia|done].
      * rewrite lookup_insert_eq. eauto.
Qed.

Lemma clips_on_disk_weaken (i : nat) (video_clips : list string)
    (files : gmap string string) :
  clips_on_disk i video_clips files -> clips_on_disk (S i) video_clips files.
Proof.
  intros [Hnodup Hclips]. split; [done|]. intros clip Hin.
  destruct (Hclips _ Hin) as [(j & Hj & ->) Hfile]. split; [|done].
  exists j. split; [lia|done].
Qed.

Lemma generate_clips_on_disk (E : Env) (fuel : nat) (imgs : Images)
    (entries : list ScriptEntry) :
  forall i acc w video_clips w',
    clips_on_disk i acc (fs w) ->
    generate_clips E fuel imgs i entries acc w = (Ok video_clips, w') ->
    clips_on_disk (i + length entries) video_clips (fs w').
Proof.
  induction entries as [|scene entries IH]; intros i acc w video_clips w' Hacc; simpl.
  - intros [= <- <-]. by rewrite Nat.add_0_r.
  - unfold bind.
    destruct (scene_clip E fuel imgs i scene w) as [[clip| |] w1] eqn:Hscene;
      try discriminate.
    intros Hrest. replace (i + S (length entries)) with (S i + length entries) by lia.
    apply (IH _ _ _ _ _) with (2 := Hrest).
    destruct (scene_clip_run _ _ _ _ _ _ _ _ Hscene)
      as [[-> ->]|(video_data & -> & ->)].
    + by apply clips_on_disk_weaken.
    + by apply clips_on_disk_snoc.
Qed.

(** Removing clips that are distinct files: all of them go, nothing
    else does. *)
Lemma remove_clips_run (video_clips : list string) :
  forall w,
    NoDup video_clips ->
    (forall clip, clip ∈ video_clips -> is_Some (fs w !! clip)) ->
    exists w',
      remove_clips video_clips w = (Ok tt, w') /\
      (forall clip, clip ∈ video_clips -> fs w' !! clip = None) /\
      (forall path, path ∉ video_clips -> fs w' !! path = fs w !! path).
Proof.
  induction video_clips as [|clip rest IH]; intros w Hnodup Hfiles; simpl.
  - exists w. split; [done|]. split; [|done].
    intros clip Hin. by apply elem_of_nil in Hin.
  - apply NoDup_cons in Hnodup as [Hfresh Hnodup].
    destruct (Hfiles clip) as [data Hdata]; [by left|].
    unfold bind, os_remove. rewrite Hdata.
    destruct (IH (mkWorld (delete clip (fs w)) (stdout w) (sent w) (clock w)) Hnodup)
      as (w' & Hrun & Hgone & Hkept).
    { intros other Hin. simpl. rewrite lookup_delete_ne; [|by intros ->].
      apply Hfiles. by right. }
    exists w'. split; [done|]. split.
    + intros other Hin. apply elem_of_cons in Hin as [->|Hin]; [|by apply Hgone].
      rewrite (Hkept clip Hfresh). simpl. apply lookup_delete_eq.
    + intros path Hpath. apply not_elem_of_cons in Hpath as [Hne Hpath].
      rewrite (Hkept path Hpath). simpl. by apply lookup_delete_ne.
Qed.

Lemma clips_not_file_list (bound : nat) (video_clips : list string)
    (files : gmap string string) :
  clips_on_disk bound video_clips files -> file_list_path ∉ video_clips.
Proof.
  intros [_ Hclips] Hin. destruct (Hclips _ Hin) as [(j & _ & Heq) _].
  symmetry in Heq. by apply clip_path_not_file_list in Heq.
Qed.

Lemma clips_not_final (bound : nat) (video_clips : list string)
    (files : gmap string string) :
  clips_on_disk bound video_clips files -> final_video_path ∉ video_clips.
Proof.
  intros [_ Hclips] Hin. destruct (Hclips _ Hin) as [(j & _ & Heq) _].
  symmetry in Heq. by apply clip_path_not_final in Heq.
Qed.

(** The branch for two clips or more, when ffmpeg exits with 0. *)
Lemma stitch_many (E : Env) (bound : nat) (video_clips : list string) (w : World) :
  clips_on_disk bound video_clips (fs w) ->
  2 <= length video_clips ->
  ffmpeg_status E ffmpeg_command
    (<[file_list_path := file_list video_clips]> (fs w)) = 0%Z ->
  exists w',
    stitch E video_clips w = (Ok final_video_path, w') /\
    (forall clip, clip ∈ video_clips -> fs w' !! clip = None) /\
    fs w' !! file_list_path = None /\
    fs w' !! final_video_path =
      Some (ffmpeg_output E ffmpeg_command
              (<[file_list_path := file_list video_clips]> (fs w))).
Proof.
  intros Hdisk Hlen Hstatus. unfold stitch.
  assert (Hmany : (1 <? length video_clips)%nat = true) by (apply Nat.ltb_lt; lia).
  rewrite Hmany.
  set (files := <[file_list_path := file_list video_clips]> (fs w)) in *.
  set (out := ffmpeg_output E ffmpeg_command files).
  set (w1 := mkWorld (<[final_video_path := out]> files)
               (stdout w ++ ["Stitching video clips together with fade transitions..."])
               (sent w ++ [Shell ffmpeg_command]) (clock w)).
  destruct (remove_clips_run video_clips w1) as (w2 & Hremove & Hgone & Hkept).
  { apply Hdisk. }
  { intros clip Hin. destruct Hdisk as [_ Hclips].
    destruct (Hclips _ Hin) as [_ Hfile]. simpl. subst files.
    rewrite !lookup_insert. repeat case_decide; eauto. }
  assert (Hlist : fs w2 !! file_list_path = Some (file_list video_clips)).
  { rewrite Hkept by (by eapply clips_not_file_list). simpl. subst files.
    rewrite lookup_insert_ne by apply final_not_file_list.
    apply lookup_insert_eq. }
  exists (mkWorld (delete file_list_path (fs w2)) (stdout w2) (sent w2) (clock w2)).
  split.
  - unfold bind at 1, print. unfold bind at 1, write_file. simpl.
    unfold bind at 1, subprocess_run_ffmpeg. simpl. fold files. rewrite Hstatus.
    simpl. fold out. fold w1. unfold bind at 1. rewrite Hremove.
    unfold bind, os_remove. by rewrite Hlist.
  - simpl. split; [|split].
    + intros clip Hin. rewrite lookup_delete. case_decide; [done|by apply Hgone].
    + apply lookup_delete_eq.
    + rewrite lookup_delete_ne by (intros H; symmetry in H; by apply final_not_file_list in H).
      rewrite Hkept by (by eapply clips_not_final). simpl. apply lookup_insert_eq.
Qed.

(** The same branch when ffmpeg exits with another status. *)
Lemma stitch_many_failed (E : Env) (video_clips : list string) (w : World) :
  2 <= length video_clips ->
  ffmpeg_status E ffmpeg_command
    (<[file_list_path := file_list video_clips]> (fs w)) <> 0%Z ->
  fst (stitch E video_clips w) = Raise (CalledProcessError ffmpeg_command).
Proof.
  intros Hlen Hstatus. unfold stitch.
  assert (Hmany : (1 <? length video_clips)%nat = true) by (apply Nat.ltb_lt; lia).
  rewrite Hmany. apply Z.eqb_neq in Hstatus.
  unfold bind at 1, print. unfold bind at 1, write_file. simpl.
  unfold bind at 1, subprocess_run_ffmpeg. simpl. by rewrite Hstatus.
Qed.

Lemma remove_clips_sent (video_clips : list string) :
  forall w, sent (snd (remove_clips video_clips w)) = sent w.
Proof.
  induction video_clips as [|clip rest IH]; intros w; simpl; [done|].
  unfold bind, os_remove. destruct (fs w !! clip); [|done]. by rewrite IH.
Qed.

(** The branch for two clips or more when ffmpeg exits with 0, with the
    request sent and the files left alone. *)
Lemma stitch_joined (E : Env) (bound : nat) (video_clips : list string) (w : World) :
  clips_on_disk bound video_clips (fs w) ->
  2 <= length video_clips ->
  ffmpeg_status E ffmpeg_command
    (<[file_list_path := file_list video_clips]> (fs w)) = 0%Z ->
  exists w',
    stitch E video_clips w = (Ok final_video_path, w') /\
    (forall clip, clip ∈ video_clips -> fs w' !! clip = None) /\
    fs w' !! file_list_path = None /\
    fs w' !! final_video_path =
      Some (ffmpeg_output E ffmpeg_command
              (<[file_list_path := file_list video_clips]> (fs w))) /\
    sent w' = sent w ++ [Shell ffmpeg_command] /\
    (forall path,
       path ∉ video_clips -> path <> file_list_path -> path <> final_video_path ->
       fs w' !! path = fs w !! path).
Proof.
  intros Hdisk Hlen Hstatus. unfold stitch.
  assert (Hmany : (1 <? length video_clips)%nat = true) by (apply Nat.ltb_lt; lia).
  rewrite Hmany.
  set (files := <[file_list_path := file_list video_clips]> (fs w)) in *.
  set (out := ffmpeg_output E ffmpeg_command files).
  set (w1 := mkWorld (<[final_video_path := out]> files)
               (stdout w ++ ["Stitching video clips together with fade transitions..."])
               (sent w ++ [Shell ffmpeg_command]) (clock w)).
  destruct (remove_clips_run video_clips w1) as (w2 & Hremove & Hgone & Hkept).
  { apply Hdisk. }
  { intros clip Hin. destruct Hdisk as [_ Hclips].
    destruct (Hclips _ Hin) as [_ Hfile]. simpl. subst files.
    rewrite !lookup_insert. repeat case_decide; eauto. }
  assert (Hsent : sent w2 = sent w1).
  { pose proof (remove_clips_sent video_clips w1) as H. by rewrite Hremove in H. }
  assert (Hlist : fs w2 !! file_list_path = Some (file_list video_clips)).
  { rewrite Hkept by (by eapply clips_not_file_list). simpl. subst files.
    rewrite lookup_insert_ne by apply final_not_file_list.
    apply lookup_insert_eq. }
  exists (mkWorld (delete file_list_path (fs w2)) (stdout w2) (sent w2) (clock w2)).
  split.
  - unfold bind at 1, print. unfold bind at 1, write_file. simpl.
    unfold bind at 1, subprocess_run_ffmpeg. simpl. fold files. rewrite Hstatus.
    simpl. fold out. fold w1. unfold bind at 1. rewrite Hremove.
    unfold bind, os_remove. by rewrite Hlist.
  - simpl. split; [|split; [|split; [|split]]].
    + intros clip Hin. rewrite lookup_delete. case_decide; [done|by apply Hgone].
    + apply lookup_delete_eq.
    + rewrite lookup_delete_ne by (intros H; symmetry in H; by apply final_not_file_list in H).
      rewrite Hkept by (by eapply clips_not_final). simpl. apply lookup_insert_eq.
    + by rewrite Hsent.
    + intros path Hclip Hlistpath Hfinal.
      rewrite lookup_delete_ne by done. rewrite (Hkept path Hclip). simpl.
      subst files. by rewrite !lookup_insert_ne.
Qed.

(** The command run is the concat call of ffmpeg on the manifest, with
    stream copy into final_video.mp4. *)
Lemma ffmpeg_command_text :
  ffmpeg_command =
  "ffmpeg -f concat -safe 0 -i /usr/local/google/home/mlad/adk-demo/videos/file_list.txt -c copy /usr/local/google/home/mlad/adk-demo/videos/final_video.mp4 -y".
Proof. reflexivity. Qed.

(** The manifest is one line per clip, in the order of the clips. *)
Lemma file_list_lines (video_clips : list string) :
  file_list video_clips =
  String.concat ""
    (map (fun clip => "file '" +:+ clip +:+ "'" +:+ String (Ascii.ascii_of_nat 10) "")
       video_clips).
Proof.
  induction video_clips as [|clip [|next rest] IH]; [reflexivity|reflexivity|].
  change (file_list (clip :: next :: rest))
    with ("file '" +:+ clip +:+ "'" +:+
          String (Ascii.ascii_of_nat 10) (file_list (next :: rest))).
  rewrite IH.
  change (String.concat ""
            (map (fun clip => "file '" +:+ clip +:+ "'" +:+ String (Ascii.ascii_of_nat 10) "")
               (clip :: next :: rest)))
    with (("file '" +:+ clip +:+ "'" +:+ String (Ascii.ascii_of_nat 10) "") +:+
          String.concat ""
            (map (fun clip => "file '" +:+ clip +:+ "'" +:+ String (Ascii.ascii_of_nat 10) "")
               (next :: rest))).
  by rewrite !str_app_assoc.
Qed.

(** C1, as the code has it.  Whatever clips the loop produced: with
    none, [create_video] returns the empty string; with one, that
    clip's path, and the files stay as the loop left them.  With two or
    more, ffmpeg is run with the concat command on a disk that holds
    every clip and the manifest, one line per clip in their order.
    When it exits with status 0, [create_video] returns
    final_video.mp4 of the videos directory, which holds what this run
    of ffmpeg wrote, and no clip file and no manifest is left; when it
    exits with another status, [create_video] raises.  So the call
    returns exactly when the status is 0. *)
Theorem create_video_finalization (E : Env) (fuel : nat) (story : Story)
    (sc : Script) (imgs : Images) (w w1 : World) (video_clips : list string) :
  generate_clips E fuel imgs 0 (script sc) [] (printed "Creating video..." w) =
    (Ok video_clips, w1) ->
  let manifest_path := "/usr/local/google/home/mlad/adk-demo/videos/file_list.txt" in
  let output_path := "/usr/local/google/home/mlad/adk-demo/videos/final_video.mp4" in
  let command :=
    "ffmpeg -f concat -safe 0 -i " +:+ manifest_path +:+ " -c copy " +:+ output_path
    +:+ " -y" in
  let manifest :=
    String.concat ""
      (map (fun clip => "file '" +:+ clip +:+ "'" +:+ String (Ascii.ascii_of_nat 10) "")
         video_clips) in
  let files := <[manifest_path := manifest]> (fs w1) in
  (video_clips = [] -> create_video E fuel story sc imgs w = (Ok "", w1)) /\
  (forall clip, video_clips = [clip] ->
     create_video E fuel story sc imgs w = (Ok clip, w1)) /\
  (2 <= length video_clips ->
   (forall clip, clip ∈ video_clips -> is_Some (files !! clip)) /\
   (ffmpeg_status E command files = 0%Z ->
    exists w2,
      create_video E fuel story sc imgs w = (Ok output_path, w2) /\
      sent w2 = sent w1 ++ [Shell command] /\
      (forall clip, clip ∈ video_clips -> fs w2 !! clip = None) /\
      fs w2 !! manifest_path = None /\
      fs w2 !! output_path = Some (ffmpeg_output E command files) /\
      (forall path,
         path ∉ video_clips -> path <> manifest_path -> path <> output_path ->
         fs w2 !! path = fs w1 !! path)) /\
   (ffmpeg_status E command files <> 0%Z ->
    fst (create_video E fuel story sc imgs w) = Raise (CalledProcessError command)) /\
   (forall video_path w2,
      create_video E fuel story sc imgs w = (Ok video_path, w2) ->
      ffmpeg_status E command files = 0%Z)).
Proof.
  intros Hloop manifest_path output_path command manifest files.
  assert (Hcommand : command = ffmpeg_command) by reflexivity.
  assert (Hfiles : files = <[file_list_path := file_list video_clips]> (fs w1)).
  { subst files manifest. by rewrite file_list_lines. }
  clearbody command files. subst command files.
  assert (Hrun : create_video E fuel story sc imgs w = stitch E video_clips w1).
  { unfold create_video, bind at 1, print. fold (printed "Creating video..." w).
    unfold bind. by rewrite Hloop. }
  rewrite Hrun. split; [|split].
  - by intros ->.
  - by intros clip ->.
  - intros Hlen.
    assert (Hdisk : clips_on_disk (0 + length (script sc)) video_clips (fs w1)).
    { apply (generate_clips_on_disk E fuel imgs (script sc) 0 []
               (printed "Creating video..." w)); [|done].
      split; [apply NoDup_nil_2|]. intros clip Hin. by apply elem_of_nil in Hin. }
    split; [|split; [|split]].
    + intros clip Hin. destruct Hdisk as [_ Hclips].
      destruct (Hclips _ Hin) as [_ Hfile].
      rewrite lookup_insert. case_decide; [by eexists|done].
    + intros Hstatus.
      destruct (stitch_joined E _ video_clips w1 Hdisk Hlen Hstatus)
        as (w2 & Hstitch & Hgone & Hlist & Hfinal & Hsent & Hframe).
      exists w2. split; [exact Hstitch|]. split; [exact Hsent|].
      split; [exact Hgone|]. split; [exact Hlist|]. split; [exact Hfinal|exact Hframe].
    + intros Hstatus. by apply stitch_many_failed.
    + intros video_path w2 Hok.
      destruct (decide (ffmpeg_status E ffmpeg_command
                          (<[file_list_path := file_list video_clips]> (fs w1)) = 0%Z))
        as [Hstatus|Hstatus]; [done|].
      pose proof (stitch_many_failed E video_clips w1 Hlen Hstatus) as Hfail.
      rewrite Hok in Hfail. discriminate.
Qed.

Lemma create_video_finalization_witness :
  exists w2,
    create_video doe_env 5 (mkStory []) doe_script doe_images doe_world =
      (Ok "/usr/local/google/home/mlad/adk-demo/videos/final_video.mp4", w2) /\
    (forall clip, clip ∈ map clip_path [0; 1; 2; 3] -> fs w2 !! clip = None) /\
    fs w2 !! "/usr/local/google/home/mlad/adk-demo/videos/file_list.txt" = None /\
    fs w2 !! "/usr/local/google/home/mlad/adk-demo/videos/final_video.mp4" =
      Some "mp4:final".
Proof.
  assert (Hloop :
    generate_clips doe_env 5 doe_images 0 (script doe_script) []
      (printed "Creating video..." doe_world) =
    (Ok (map clip_path [0; 1; 2; 3]), doe_clips_world)).
  { vm_compute. reflexivity. }
  destruct (create_video_finalization doe_env 5 (mkStory []) doe_script doe_images
              doe_world doe_clips_world (map clip_path [0; 1; 2; 3]) Hloop)
    as (_ & _ & Hmany).
  destruct Hmany as (_ & Hjoined & _); [simpl; lia|].
  destruct Hjoined as (w2 & Hrun & _ & Hgone & Hlist & Hfinal & _); [reflexivity|].
  exists w2. split; [exact Hrun|]. split; [exact Hgone|]. split; [exact Hlist|].
  exact Hfinal.
Defined.

(** C1, as it is worded, fails: with four clips produced and an ffmpeg
    that exits with status 1, the call raises, returns no path, and
    every clip file and the manifest are still on disk after it. *)
Lemma doe_join_fails_keeps_clips :
  fst (generate_clips broken_ffmpeg_env 5 doe_images 0 (script doe_script) []
         (printed "Creating video..." doe_world)) = Ok (map clip_path [0; 1; 2; 3]) /\
  2 <= length (map clip_path [0; 1; 2; 3]) /\
  fst (create_video broken_ffmpeg_env 5 (mkStory []) doe_script doe_images doe_world) =
    Raise (CalledProcessError ffmpeg_command) /\
  (forall clip, clip ∈ map clip_path [0; 1; 2; 3] ->
     is_Some (fs (snd (create_video broken_ffmpeg_env 5 (mkStory []) doe_script
                         doe_images doe_world)) !! clip)) /\
  is_Some (fs (snd (create_video broken_ffmpeg_env 5 (mkStory []) doe_script
                      doe_images doe_world)) !! file_list_path).
Proof.
  split; [by vm_compute|]. split; [simpl; lia|]. split; [by vm_compute|].
  split.
  - intros clip Hin. simpl in Hin.
    repeat (apply elem_of_cons in Hin as [->|Hin];
            [eexists; vm_compute; reflexivity|]).
    by apply elem_of_nil in Hin.
  - eexists. vm_compute. reflexivity.
Qed.

(** * Further properties of the agents *)

(** ** Narrative builder and scene scripter *)

(** X1. With fewer than two records [create_story] prints its line and
    raises [IndexError]. *)
Theorem create_story_too_few_records (family_history : FamilyHistory) (w : World) :
  length (records family_history) < 2 ->
  create_story family_history w = (Raise IndexError, printed "Creating story..." w).
Proof.
  destruct family_history as [[|r0 [|r1 rest]]]; simpl; intros H;
    [reflexivity|reflexivity|lia].
Qed.

Lemma create_story_too_few_records_witness :
  create_story (mkFamilyHistory [john]) empty_world =
    (Raise IndexError, printed "Creating story..." empty_world).
Proof.
  apply (create_story_too_few_records (mkFamilyHistory [john]) empty_world).
  simpl. lia.
Defined.

(** X2. The story is made of the names and birth places of the first
    two records and of nothing else: two inputs that agree on these
    give the same story. *)
Theorem create_story_reads_two_records (h1 h2 : FamilyHistory) (w : World)
    (a0 a1 b0 b1 : CharacterRecord) :
  records h1 !! 0 = Some a0 -> records h1 !! 1 = Some a1 ->
  records h2 !! 0 = Some b0 -> records h2 !! 1 = Some b1 ->
  name a0 = name b0 -> birth_place a0 = birth_place b0 ->
  name a1 = name b1 -> birth_place a1 = birth_place b1 ->
  create_story h1 w = create_story h2 w.
Proof.
  destruct h1 as [[|x0 [|x1 r1]]], h2 as [[|y0 [|y1 r2]]]; simpl;
    intros Ha0 Ha1 Hb0 Hb1; try discriminate.
  injection Ha0 as ->. injection Ha1 as ->. injection Hb0 as ->. injection Hb1 as ->.
  intros Hn0 Hp0 Hn1 Hp1. unfold create_story, bind, print, getitem, ret. simpl.
  by rewrite Hn0, Hp0, Hn1, Hp1.
Qed.

Lemma create_story_reads_two_records_witness :
  create_story (mkFamilyHistory [john; jane]) empty_world =
  create_story
    (mkFamilyHistory [mkCharacter "John" "Springfield" "file:///other/john.png";
                      mkCharacter "Jane" "Rivertown" "file:///other/jane.png";
                      mkCharacter "Jim" "Lakeside" "file:///other/jim.png"])
    empty_world.
Proof.
  by apply (create_story_reads_two_records _ _ empty_world john jane
              (mkCharacter "John" "Springfield" "file:///other/john.png")
              (mkCharacter "Jane" "Rivertown" "file:///other/jane.png")).
Defined.

(** X3. In the script made from a story of [create_story], the entry at
    position [i] has scene number [i + 1]: the scene of the portraits
    (scene number 1 in [create_images]) is the scene of the camera pan
    (position 0 in [create_video]). *)
Theorem pipeline_script_positions (family_history : FamilyHistory)
    (w w1 w2 : World) (story : Story) (sc : Script) :
  create_story family_history w = (Ok story, w1) ->
  create_script story w1 = (Ok sc, w2) ->
  length (script sc) = 4 /\
  forall i entry,
    script sc !! i = Some entry ->
    entry_scene_number entry = (Z.of_nat i + 1)%Z /\
    (entry_scene_number entry = 1%Z <-> i = 0).
Proof.
  destruct family_history as [[|r0 [|r1 rest]]]; try discriminate.
  intros [= <- _] [= <- _]. split; [reflexivity|].
  intros i entry Hi.
  do 4 (destruct i as [|i]; [injection Hi as <-; simpl; split; [lia|split; [done|lia]]|]).
  discriminate.
Qed.

Lemma pipeline_script_positions_witness :
  length (script doe_script) = 4 /\
  forall i entry,
    script doe_script !! i = Some entry ->
    entry_scene_number entry = (Z.of_nat i + 1)%Z /\
    (entry_scene_number entry = 1%Z <-> i = 0).
Proof.
  apply (pipeline_script_positions (mkFamilyHistory [john; jane]) empty_world
           (snd (create_story (mkFamilyHistory [john; jane]) empty_world))
           (snd (create_script
                   (mkStory (match fst (create_story (mkFamilyHistory [john; jane])
                                          empty_world) with
                             | Ok story => scenes story
                             | _ => []
                             end))
                   (snd (create_story (mkFamilyHistory [john; jane]) empty_world))))
           (mkStory (match fst (create_story (mkFamilyHistory [john; jane])
                                  empty_world) with
                     | Ok story => scenes story
                     | _ => []
                     end))
           doe_script); reflexivity.
Defined.

(** ** Image synthesizer: requests and files *)

Lemma writes_only_refl (P : string -> Prop) (w : World) : writes_only P w w.
Proof. by intros path _. Qed.

Lemma writes_only_trans (P : string -> Prop) (w1 w2 w3 : World) :
  writes_only P w1 w2 -> writes_only P w2 w3 -> writes_only P w1 w3.
Proof. intros H12 H23 path Hpath. by rewrite H23, H12. Qed.

Lemma writes_only_weaken (P Q : string -> Prop) (w w' : World) :
  (forall path, P path -> Q path) -> writes_only P w w' -> writes_only Q w w'.
Proof. intros HPQ H path Hpath. apply H. intros HP. by apply Hpath, HPQ. Qed.

Lemma keeps_files_refl (w : World) : keeps_files w w.
Proof. by intros path. Qed.

Lemma keeps_files_trans (w1 w2 w3 : World) :
  keeps_files w1 w2 -> keeps_files w2 w3 -> keeps_files w1 w3.
Proof. intros H12 H23 path Hpath. by apply H23, H12. Qed.

(** A property of the worlds that every step keeps holds along a
    sequence. *)
Lemma bind_world_rel {A B} (R : World -> World -> Prop) (c : M A) (k : A -> M B)
    (w : World) :
  (forall x y z, R x y -> R y z -> R x z) ->
  R w (snd (c w)) ->
  (forall a w1, R w1 (snd (k a w1))) ->
  R w (snd (bind c k w)).
Proof.
  intros Htrans Hc Hk. unfold bind.
  destruct (c w) as [[a| |] w1]; simpl in *; [|done..].
  by apply (Htrans _ w1), Hk.
Qed.

(** What [generate_image] does, in its two outcomes. *)
Lemma generate_image_cases (E : Env) (parts : list string)
    (prompt output_path : string) (w : World) :
  let found :=
    match generate_content E (length (sent w)) parts prompt with
    | ContentParts items => first_inline_data items
    | ContentRaised _ => None
    end in
  exists console,
    generate_image E parts prompt output_path w =
      (Ok (bool_decide (is_Some found)),
       mkWorld (<[output_path := default placeholder_image found]> (fs w))
               (stdout w ++ console)
               (sent w ++ [GenerateContent parts prompt]) (clock w)) /\
    length console = (if bool_decide (is_Some found) then 0 else 1).
Proof.
  unfold generate_image, bind at 1, call_generate_content.
  destruct (generate_content E _ parts prompt) as [msg|items]; simpl.
  - eexists [_]. split; reflexivity.
  - destruct (first_inline_data items) as [data|]; simpl.
    + exists []. by rewrite app_nil_r.
    + eexists [_]. split; reflexivity.
Qed.

Lemma first_inline_data_spec (items : list (option string)) (data : string) :
  first_inline_data items = Some data <->
  exists before after,
    items = before ++ Some data :: after /\ Forall (fun item => item = None) before.
Proof.
  split.
  - induction items as [|[d|] items IH]; simpl; intros H; [done| |].
    + injection H as ->. by exists [], items.
    + destruct (IH H) as (before & after & -> & Hnone).
      exists (None :: before), after. split; [done|by constructor].
  - intros (before & after & -> & Hnone).
    induction Hnone as [|item before -> _ IH]; [done|exact IH].
Qed.

(** X4. [generate_image] never raises.  It sends one request and then
    writes the output file in every case: the first inline payload of
    the answer, with [True] returned, or, when the call raised or the
    answer has no inline payload, the placeholder text, with [False]
    returned and one line on the console. *)
Theorem generate_image_always_writes (E : Env) (parts : list string)
    (prompt output_path : string) (w : World) :
  exists generated w',
    generate_image E parts prompt output_path w = (Ok generated, w') /\
    sent w' = sent w ++ [GenerateContent parts prompt] /\
    clock w' = clock w /\
    (forall path, path <> output_path -> fs w' !! path = fs w !! path) /\
    (forall items before data after,
       generate_content E (length (sent w)) parts prompt = ContentParts items ->
       items = before ++ Some data :: after ->
       Forall (fun item => item = None) before ->
       generated = true /\ fs w' !! output_path = Some data /\
       stdout w' = stdout w) /\
    ((forall items,
        generate_content E (length (sent w)) parts prompt = ContentParts items ->
        Forall (fun item => item = None) items) ->
     generated = false /\ fs w' !! output_path = Some placeholder_image /\
     length (stdout w') = S (length (stdout w))).
Proof.
  destruct (generate_image_cases E parts prompt output_path w)
    as (console & Hrun & Hconsole).
  eexists _, _. split; [exact Hrun|]. simpl.
  split; [done|]. split; [done|]. split; [|split].
  - intros path Hne. by rewrite lookup_insert_ne.
  - intros items before data after Hanswer Hitems Hnone.
    assert (Hfound : first_inline_data items = Some data).
    { apply first_inline_data_spec. by exists before, after. }
    rewrite Hanswer, Hfound in *. simpl in *.
    rewrite lookup_insert_eq. destruct console; [|done].
    by rewrite app_nil_r.
  - intros Hnone.
    assert (Hfound :
      match generate_content E (length (sent w)) parts prompt with
      | ContentParts items => first_inline_data items
      | ContentRaised _ => None
      end = None).
    { destruct (generate_content E _ parts prompt) as [msg|items] eqn:Hanswer;
        [done|].
      destruct (first_inline_data items) as [data|] eqn:Hfirst; [|done].
      apply first_inline_data_spec in Hfirst as (before & after & -> & _).
      specialize (Hnone _ eq_refl).
      apply Forall_app in Hnone as [_ Hnone].
      by apply Forall_cons in Hnone as [? _]. }
    rewrite Hfound in *. simpl in *. rewrite lookup_insert_eq.
    split; [done|]. split; [done|]. rewrite length_app, Hconsole. lia.
Qed.

Lemma generate_image_always_writes_witness :
  exists generated w',
    generate_image doe_env [] "a prompt" "/tmp/out.png" empty_world = (Ok generated, w') /\
    generated = true /\ fs w' !! "/tmp/out.png" = Some "png:a prompt" /\
    stdout w' = [].
Proof.
  destruct (generate_image_always_writes doe_env [] "a prompt" "/tmp/out.png" empty_world)
    as (generated & w' & Hrun & _ & _ & _ & Hfound & _).
  exists generated, w'. split; [exact Hrun|].
  apply (Hfound [None; Some "png:a prompt"] [None] "png:a prompt" []).
  - reflexivity.
  - reflexivity.
  - by repeat constructor.
Defined.

Lemma named_characters_cons (base_prompt : string) (character : CharacterRecord)
    (cs : list CharacterRecord) :
  named_characters base_prompt (character :: cs) =
  if str_in (name character) base_prompt
  then character :: named_characters base_prompt cs
  else named_characters base_prompt cs.
Proof.
  unfold named_characters. rewrite filter_cons.
  destruct (str_in (name character) base_prompt); by case_decide.
Qed.

Lemma collect_character_parts_world (E : Env) (base_prompt : string)
    (cs : list CharacterRecord) (w : World) :
  snd (collect_character_parts E base_prompt cs w) = w.
Proof.
  induction cs as [|c cs IH]; simpl; [done|].
  destruct (str_in (name c) base_prompt); [|exact IH].
  unfold bind, read_file. destruct (fs w !! _); [|done].
  by destruct (collect_character_parts E base_prompt cs w) as [[parts| |] w1].
Qed.

(** X5. The reference images are the portraits of exactly the
    characters whose name occurs in the prompt, in the order of the
    list; the scan changes nothing.  It raises [FileNotFoundError] for
    the first such character whose portrait is not on disk. *)
Theorem collect_character_parts_named (E : Env) (base_prompt : string)
    (cs : list CharacterRecord) (w : World) :
  (forall parts,
     Forall2 (fun character data =>
                fs w !! urlparse_path E (image_url character) = Some data)
             (named_characters base_prompt cs) parts ->
     collect_character_parts E base_prompt cs w = (Ok parts, w)) /\
  (forall before character after,
     named_characters base_prompt cs = before ++ character :: after ->
     Forall (fun c => is_Some (fs w !! urlparse_path E (image_url c))) before ->
     fs w !! urlparse_path E (image_url character) = None ->
     collect_character_parts E base_prompt cs w =
       (Raise (FileNotFoundError (urlparse_path E (image_url character))), w)).
Proof.
  split.
  - induction cs as [|c cs IH]; intros parts; rewrite ?named_characters_cons; simpl.
    + intros Hparts. by apply Forall2_nil_inv_l in Hparts as ->.
    + destruct (str_in (name c) base_prompt); [|apply IH].
      intros Hparts.
      apply Forall2_cons_inv_l in Hparts as (data & rest & Hdata & Hrest & ->).
      unfold bind, read_file. by rewrite Hdata, (IH rest Hrest).
  - induction cs as [|c cs IH]; intros before character after;
      rewrite ?named_characters_cons; simpl.
    + intros H. by destruct before.
    + destruct (str_in (name c) base_prompt); [|apply IH].
      destruct before as [|b before]; simpl; intros [= <- Hnamed] Hbefore Hmissing.
      * unfold bind, read_file. by rewrite Hmissing.
      * apply Forall_cons in Hbefore as [[data Hdata] Hbefore].
        unfold bind, read_file.
        by rewrite Hdata, (IH before character after Hnamed Hbefore Hmissing).
Qed.

Lemma collect_character_parts_named_witness :
  collect_character_parts doe_env "John met Jane" [jane; john] doe_world =
    (Ok ["jpg:jane"; "jpg:john"], doe_world) /\
  collect_character_parts doe_env "John met Jane" [jane; john] empty_world =
    (Raise (FileNotFoundError "/home/doe/jane.jpg"), empty_world).
Proof.
  split.
  - apply (proj1 (collect_character_parts_named doe_env "John met Jane"
                    [jane; john] doe_world)).
    by repeat constructor.
  - apply (proj2 (collect_character_parts_named doe_env "John met Jane"
                    [jane; john] empty_world) [] jane [john]);
      [reflexivity|constructor|reflexivity].
Defined.

Lemma bind_raise {A B} (c : M A) (k : A -> M B) (w w1 : World) (e : exn) :
  c w = (Raise e, w1) -> bind c k w = (Raise e, w1).
Proof. unfold bind. by intros ->. Qed.

Lemma bind_stop {A B} (c : M A) (k : A -> M B) (w w1 : World) :
  c w = (OutOfFuel, w1) -> bind c k w = (OutOfFuel, w1).
Proof. unfold bind. by intros ->. Qed.

(** The world after the body of the loop of [create_images], however it
    ends. *)
Lemma scene_images_world (E : Env) (character_images : CharacterData)
    (scene : ScriptEntry) (w : World) :
  let n := entry_scene_number scene in
  let w' := snd (scene_images E character_images scene w) in
  clock w' = clock w /\
  keeps_files w w' /\
  writes_only (fun path => n <> 1%Z /\
                 (path = scene_image_path n "start" \/
                  path = scene_image_path n "end")) w w' /\
  exists requests,
    sent w' = sent w ++ requests /\
    Forall (fun r => exists parts prompt, r = GenerateContent parts prompt) requests /\
    (characters character_images = None ->
     Forall (fun r => exists prompt, r = GenerateContent [] prompt) requests).
Proof.
  intros n w'. subst w'. unfold scene_images. fold n.
  destruct (n =? 1)%Z eqn:Hn.
  - assert (Hw : snd ((do cs <- getitem_characters character_images;
                       do first <- getitem cs 0;
                       do cs' <- getitem_characters character_images;
                       do second <- getitem cs' 1;
                       ret (mkImagePair n (urlparse_path E (image_url first))
                              (urlparse_path E (image_url second)))) w) = w).
    { unfold bind, getitem_characters, getitem, ret, raise.
      destruct (characters character_images) as [[|c0 [|c1 rest]]|]; done. }
    rewrite Hw. split; [done|]. split; [apply keeps_files_refl|].
    split; [apply writes_only_refl|]. exists []. by rewrite app_nil_r.
  - apply Z.eqb_neq in Hn.
    set (collect :=
      match characters character_images with
      | Some cs => collect_character_parts E (base_prompt_of scene) cs
      | None => ret []
      end).
    assert (Hcollect : snd (collect w) = w).
    { subst collect. destruct (characters character_images);
        [apply collect_character_parts_world|done]. }
    assert (Hnone : characters character_images = None -> collect w = (Ok [], w)).
    { subst collect. by intros ->. }
    destruct (collect w) as [[parts|e|] w1] eqn:Hc; simpl in Hcollect; subst w1.
    2: { rewrite (bind_raise _ _ _ _ _ Hc). simpl.
         split; [done|]. split; [apply keeps_files_refl|].
         split; [apply writes_only_refl|]. exists []. by rewrite app_nil_r. }
    2: { rewrite (bind_stop _ _ _ _ Hc). simpl.
         split; [done|]. split; [apply keeps_files_refl|].
         split; [apply writes_only_refl|]. exists []. by rewrite app_nil_r. }
    rewrite (bind_step _ _ _ _ _ Hc).
    set (before := "Before the action: " +:+ _).
    set (after := if (n =? 4)%Z then _ else _).
    destruct (generate_image_cases E parts before (scene_image_path n "start") w)
      as (console1 & Hrun1 & _).
    rewrite (bind_step _ _ _ _ _ Hrun1).
    match goal with
    | |- context [bind (generate_image E parts after ?p) _ ?w1] =>
        destruct (generate_image_cases E parts after p w1) as (console2 & Hrun2 & _)
    end.
    rewrite (bind_step _ _ _ _ _ Hrun2). simpl.
    split; [done|]. split; [|split].
    + intros path Hpath. simpl. rewrite !lookup_insert. repeat case_decide; eauto.
    + intros path Hpath. simpl. rewrite !lookup_insert_ne; [done|..];
        intros <-; apply Hpath; eauto.
    + eexists [_; _]. split; [by rewrite <- app_assoc|]. split.
      * repeat constructor; eauto.
      * intros Hchars. specialize (Hnone Hchars). injection Hnone as <-.
        repeat constructor; eauto.
Qed.

Lemma image_stage_step_refl (character_images : CharacterData)
    (P : string -> Prop) (w : World) :
  image_stage_step character_images P w w.
Proof.
  split; [done|]. split; [apply keeps_files_refl|].
  split; [apply writes_only_refl|]. exists []. by rewrite app_nil_r.
Qed.

Lemma image_stage_step_print (character_images : CharacterData)
    (P : string -> Prop) (line : string) (w : World) :
  image_stage_step character_images P w (snd (print line w)).
Proof.
  split; [done|]. split; [by intros path|]. split; [by intros path|].
  exists []. simpl. by rewrite app_nil_r.
Qed.

Lemma image_stage_step_trans (character_images : CharacterData)
    (P : string -> Prop) (w1 w2 w3 : World) :
  image_stage_step character_images P w1 w2 ->
  image_stage_step character_images P w2 w3 ->
  image_stage_step character_images P w1 w3.
Proof.
  intros (Hc1 & Hk1 & Hw1 & r1 & Hs1 & Hg1 & Hn1)
         (Hc2 & Hk2 & Hw2 & r2 & Hs2 & Hg2 & Hn2).
  split; [congruence|]. split; [by eapply keeps_files_trans|].
  split; [by eapply writes_only_trans|].
  exists (r1 ++ r2). split; [by rewrite Hs2, Hs1, app_assoc|].
  split; [by apply Forall_app|]. intros Hnone. apply Forall_app. auto.
Qed.

Lemma image_stage_step_weaken (character_images : CharacterData)
    (P Q : string -> Prop) (w w' : World) :
  (forall path, P path -> Q path) ->
  image_stage_step character_images P w w' ->
  image_stage_step character_images Q w w'.
Proof.
  intros HPQ (Hc & Hk & Hw & Hr). split; [done|]. split; [done|].
  split; [by eapply writes_only_weaken|done].
Qed.

Lemma for_each_scene_world (E : Env) (character_images : CharacterData)
    (entries : list ScriptEntry) :
  forall w,
    image_stage_step character_images (is_scene_image_path entries) w
      (snd (for_each_scene E character_images entries w)).
Proof.
  induction entries as [|scene entries IH]; intros w; simpl.
  - apply image_stage_step_refl.
  - apply bind_world_rel; [apply image_stage_step_trans| |].
    + eapply image_stage_step_weaken; [|apply scene_images_world].
      intros path [Hn Hpath]. exists scene.
      destruct Hpath as [->| ->]; eexists; (split; [by left|]); eauto.
    + intros pair w1. apply bind_world_rel; [apply image_stage_step_trans| |].
      * eapply image_stage_step_weaken; [|apply IH].
        intros path (sc & which & Hin & Hrest). exists sc, which.
        split; [by right|done].
      * intros pairs w2. apply image_stage_step_refl.
Qed.

(** X6. However [create_images] ends, it has slept no time, removed no
    file, written no file other than the start and end images of
    entries of its script that are not scene 1, and sent nothing but
    image generation requests. *)
Theorem create_images_footprint (E : Env) (sc : Script)
    (character_images : CharacterData) (w : World) :
  let w' := snd (create_images E sc character_images w) in
  clock w' = clock w /\
  keeps_files w w' /\
  writes_only (is_scene_image_path (script sc)) w w' /\
  exists requests,
    sent w' = sent w ++ requests /\
    Forall (fun r => exists parts prompt, r = GenerateContent parts prompt) requests.
Proof.
  intros w'.
  assert (Hstep : image_stage_step character_images (is_scene_image_path (script sc))
                    w w').
  { subst w'. unfold create_images.
    apply bind_world_rel; [apply image_stage_step_trans|apply image_stage_step_print|].
    intros u w1. apply bind_world_rel; [apply image_stage_step_trans| |].
    - apply for_each_scene_world.
    - intros pairs w2. apply image_stage_step_refl. }
  destruct Hstep as (Hc & Hk & Hw & requests & Hs & Hg & _). eauto 10.
Qed.

Lemma bind_raise_fst {A B} (c : M A) (k : A -> M B) (w : World) (e : exn) :
  fst (c w) = Raise e -> fst (bind c k w) = Raise e.
Proof.
  unfold bind. destruct (c w) as [[a|e'|] w1]; simpl; intros H;
    [discriminate|by injection H as ->|discriminate].
Qed.

Lemma scene_images_none (E : Env) (character_images : CharacterData)
    (scene : ScriptEntry) (w : World) :
  characters character_images = None ->
  (entry_scene_number scene = 1%Z ->
   scene_images E character_images scene w = (Raise (KeyError "characters"), w)) /\
  (entry_scene_number scene <> 1%Z ->
   exists w',
     scene_images E character_images scene w =
       (Ok (mkImagePair (entry_scene_number scene)
              (scene_image_path (entry_scene_number scene) "start")
              (scene_image_path (entry_scene_number scene) "end")), w')).
Proof.
  intros Hnone. unfold scene_images. split; intros Hn.
  - rewrite Hn. simpl. unfold bind, getitem_characters. by rewrite Hnone.
  - apply Z.eqb_neq in Hn. rewrite Hn, Hnone.
    erewrite bind_step by reflexivity.
    set (before := "Before the action: " +:+ _).
    set (after := if (entry_scene_number scene =? 4)%Z then _ else _).
    destruct (generate_image_cases E [] before
                (scene_image_path (entry_scene_number scene) "start") w)
      as (console1 & Hrun1 & _).
    rewrite (bind_step _ _ _ _ _ Hrun1).
    match goal with
    | |- context [bind (generate_image E [] after ?p) _ ?w1] =>
        destruct (generate_image_cases E [] after p w1) as (console2 & Hrun2 & _)
    end.
    rewrite (bind_step _ _ _ _ _ Hrun2). by eexists.
Qed.

Lemma for_each_scene_none (E : Env) (character_images : CharacterData)
    (entries : list ScriptEntry) :
  characters character_images = None ->
  forall w,
    ((forall scene, scene ∈ entries -> entry_scene_number scene <> 1%Z) ->
     exists pairs w',
       for_each_scene E character_images entries w = (Ok pairs, w') /\
       map pair_scene_number pairs = map entry_scene_number entries) /\
    ((exists scene, scene ∈ entries /\ entry_scene_number scene = 1%Z) ->
     fst (for_each_scene E character_images entries w) = Raise (KeyError "characters")).
Proof.
  intros Hnone. induction entries as [|scene entries IH]; intros w.
  - split; [by eexists [], w|]. intros (scene & Hin & _). by apply elem_of_nil in Hin.
  - simpl. destruct (scene_images_none E character_images scene w Hnone)
      as [Hfirst Hother].
    destruct (decide (entry_scene_number scene = 1%Z)) as [Hn|Hn].
    + split.
      * intros Hall. destruct (Hall scene); [by left|done].
      * intros _. by rewrite (bind_raise _ _ _ _ _ (Hfirst Hn)).
    + destruct (Hother Hn) as [w1 Hrun]. rewrite (bind_step _ _ _ _ _ Hrun).
      destruct (IH w1) as [IHok IHraise]. split.
      * intros Hall. destruct IHok as (pairs & w' & Hrest & Hnums).
        { intros sc Hin. apply Hall. by right. }
        rewrite (bind_step _ _ _ _ _ Hrest). eexists _, w'.
        split; [reflexivity|]. simpl. by rewrite Hnums.
      * intros (sc & Hin & Hone). apply bind_raise_fst.
        apply IHraise. exists sc. split; [|done].
        apply elem_of_cons in Hin as [->|Hin]; done.
Qed.

(** X7. On the error shape of the fetcher (no "characters" key), a
    script without an entry of scene 1 is still served: one pair per
    entry, every generation request without reference images; with an
    entry of scene 1 the call raises [KeyError] for "characters". *)
Theorem create_images_without_characters (E : Env) (sc : Script)
    (character_images : CharacterData) (w : World) :
  characters character_images = None ->
  ((forall scene, scene ∈ script sc -> entry_scene_number scene <> 1%Z) ->
   exists imgs w' requests,
     create_images E sc character_images w = (Ok imgs, w') /\
     map pair_scene_number (images imgs) = map entry_scene_number (script sc) /\
     sent w' = sent w ++ requests /\
     Forall (fun r => exists prompt, r = GenerateContent [] prompt) requests) /\
  ((exists scene, scene ∈ script sc /\ entry_scene_number scene = 1%Z) ->
   fst (create_images E sc character_images w) = Raise (KeyError "characters")).
Proof.
  intros Hnone. unfold create_images.
  erewrite bind_step by reflexivity.
  destruct (for_each_scene_none E character_images (script sc) Hnone
              (printed "Creating images..." w)) as [Hok Hraise].
  split.
  - intros Hall. destruct (Hok Hall) as (pairs & w' & Hrun & Hnums).
    destruct (for_each_scene_world E character_images (script sc)
                (printed "Creating images..." w))
      as (_ & _ & _ & requests & Hsent & _ & Hrefs).
    rewrite Hrun in Hsent. simpl in Hsent.
    exists (mkImages pairs), w', requests.
    split; [by rewrite (bind_step _ _ _ _ _ Hrun)|]. auto.
  - intros Hone. apply bind_raise_fst. by apply Hraise.
Qed.

Lemma create_images_without_characters_witness :
  fst (create_images doe_env doe_script (mkCharacterData None (Some "no such family"))
         empty_world) = Raise (KeyError "characters").
Proof.
  apply (proj2 (create_images_without_characters doe_env doe_script
                  (mkCharacterData None (Some "no such family")) empty_world
                  eq_refl)).
  eexists. split; [apply list_elem_of_lookup; exists 0; reflexivity|reflexivity].
Defined.

Lemma scene_images_ok (E : Env) (character_images : CharacterData)
    (scene : ScriptEntry) (w w' : World) (pair : ImagePair) :
  scene_images E character_images scene w = (Ok pair, w') ->
  pair_scene_number pair = entry_scene_number scene /\
  (entry_scene_number scene <> 1%Z ->
   start_image_path pair = scene_image_path (entry_scene_number scene) "start" /\
   end_image_path pair = scene_image_path (entry_scene_number scene) "end" /\
   is_Some (fs w' !! start_image_path pair) /\
   is_Some (fs w' !! end_image_path pair)).
Proof.
  unfold scene_images. destruct (entry_scene_number scene =? 1)%Z eqn:Hn; intros H.
  - apply Z.eqb_eq in Hn.
    bind_inv H cs w1 H1. bind_inv H c0 w2 H2. bind_inv H cs' w3 H3.
    bind_inv H c1 w4 H4. injection H as <- _. split; [done|]. by intros [].
  - bind_inv H parts w1 Hparts.
    match type of H with
    | bind (generate_image E parts ?b ?p) _ w1 = _ =>
        destruct (generate_image_cases E parts b p w1) as (console1 & Hrun1 & _)
    end.
    rewrite (bind_step _ _ _ _ _ Hrun1) in H.
    match type of H with
    | bind (generate_image E parts ?a ?p) _ ?w2 = _ =>
        destruct (generate_image_cases E parts a p w2) as (console2 & Hrun2 & _)
    end.
    rewrite (bind_step _ _ _ _ _ Hrun2) in H. injection H as <- <-.
    split; [done|]. intros _. simpl. split; [done|]. split; [done|].
    split.
    + rewrite lookup_insert. case_decide; [by eexists|].
      rewrite lookup_insert_eq. by eexists.
    + rewrite lookup_insert_eq. by eexists.
Qed.

Lemma for_each_scene_ok (E : Env) (character_images : CharacterData)
    (entries : list ScriptEntry) :
  forall w w' pairs,
    for_each_scene E character_images entries w = (Ok pairs, w') ->
    map pair_scene_number pairs = map entry_scene_number entries /\
    forall i scene pair,
      entries !! i = Some scene -> pairs !! i = Some pair ->
      entry_scene_number scene <> 1%Z ->
      start_image_path pair = scene_image_path (entry_scene_number scene) "start" /\
      end_image_path pair = scene_image_path (entry_scene_number scene) "end" /\
      is_Some (fs w' !! start_image_path pair) /\
      is_Some (fs w' !! end_image_path pair).
Proof.
  induction entries as [|scene entries IH]; intros w w' pairs H; simpl in H.
  - injection H as <- <-. split; [done|]. by intros i scene pair Hi.
  - bind_inv H img w1 Hscene. bind_inv H rest w2 Hrest. injection H as <- <-.
    destruct (scene_images_ok _ _ _ _ _ _ Hscene) as [Hnum Hfiles].
    destruct (IH _ _ _ Hrest) as [Hnums Hrestfiles].
    split; [simpl; by rewrite Hnum, Hnums|].
    intros [|i] sc p Hi Hp Hn; simpl in *; [|by eapply Hrestfiles].
    injection Hi as <-. injection Hp as <-.
    destruct (Hfiles Hn) as (Hs & He & Hfs & Hfe). split; [done|]. split; [done|].
    destruct (for_each_scene_world E character_images entries w1) as (_ & Hkeep & _).
    rewrite Hrest in Hkeep. split; by apply Hkeep.
Qed.

(** X8. Whenever [create_images] returns, and whatever the dict of
    characters was, there is one pair per entry with the scene number
    of the entry at its position, and every pair of an entry that is
    not scene 1 names the two files scene_n_start.png and
    scene_n_end.png of the images directory, which exist. *)
Theorem create_images_returned (E : Env) (sc : Script)
    (character_images : CharacterData) (w w' : World) (imgs : Images) :
  create_images E sc character_images w = (Ok imgs, w') ->
  map pair_scene_number (images imgs) = map entry_scene_number (script sc) /\
  forall i scene pair,
    script sc !! i = Some scene -> images imgs !! i = Some pair ->
    entry_scene_number scene <> 1%Z ->
    start_image_path pair =
      path_join images_dir ("scene_" +:+ pretty (entry_scene_number scene) +:+ "_start.png") /\
    end_image_path pair =
      path_join images_dir ("scene_" +:+ pretty (entry_scene_number scene) +:+ "_end.png") /\
    is_Some (fs w' !! start_image_path pair) /\
    is_Some (fs w' !! end_image_path pair).
Proof.
  unfold create_images. intros H.
  bind_inv H u w1 Hprint. bind_inv H pairs w2 Hrun. injection H as <- <-.
  exact (for_each_scene_ok E character_images (script sc) _ _ _ Hrun).
Qed.

Lemma create_images_returned_witness :
  map pair_scene_number (images doe_images) = map entry_scene_number (script doe_script).
Proof.
  apply (create_images_returned doe_env doe_script doe_characters doe_world
           (snd (create_images doe_env doe_script doe_characters doe_world))
           doe_images).
  vm_compute. reflexivity.
Defined.

(** ** The prompt of a scene *)

Lemma str_replace_go_skip (old new t s : string) :
  str_replace_go old new (String.length t) (t +:+ s) = str_replace_go old new 0 s.
Proof.
  induction t as [|x t IH]; [done|].
  change (str_replace_go old new (String.length t) (t +:+ s) =
          str_replace_go old new 0 s).
  exact IH.
Qed.

(** Where [old] does not occur, [replace] changes nothing. *)
Lemma str_replace_absent (old new s : string) :
  str_in old s = false -> str_replace old new s = s.
Proof.
  unfold str_replace. induction s as [|c s IH]; rewrite str_in_unfold.
  - destruct old; [discriminate|done].
  - destruct (String.prefix old (String c s)) eqn:Hp; [discriminate|].
    intros Hrest. cbn [str_replace_go]. rewrite Hp. by rewrite (IH Hrest).
Qed.

(** An occurrence at the front is replaced, and the scan goes on after
    it. *)
Lemma str_replace_front (old new s : string) :
  old <> "" ->
  str_replace old new (old +:+ s) = new +:+ str_replace old new s.
Proof.
  destruct old as [|a old]; [done|]. intros _. unfold str_replace.
  change (String a old +:+ s) with (String a (old +:+ s)).
  cbn [str_replace_go].
  change (String a (old +:+ s)) with (String a old +:+ s).
  rewrite (prefix_app (String a old) s).
  replace (String.length (String a old) - 1) with (String.length old)
    by (change (String.length (String a old)) with (S (String.length old)); lia).
  by rewrite str_replace_go_skip.
Qed.

(** X9. The prompt of a scene is its description with the narrator
    prefix taken off: for a description "Narrator: d" in which d has no
    "Narrator: " of its own, the base prompt is d; and a description
    without "Narrator: " is its own base prompt. *)
Theorem base_prompt_strips_narrator (n : Z) (d line : string) :
  str_in "Narrator: " d = false ->
  base_prompt_of (mkScriptEntry n ("Narrator: " +:+ d) line) = d /\
  base_prompt_of (mkScriptEntry n d line) = d.
Proof.
  intros Habsent. unfold base_prompt_of. cbn [entry_description]. split.
  - rewrite str_replace_front by done. by rewrite str_replace_absent.
  - by apply str_replace_absent.
Qed.

Lemma base_prompt_strips_narrator_witness :
  base_prompt_of (mkScriptEntry 2 "Narrator: John was a blacksmith" "") =
    "John was a blacksmith" /\
  base_prompt_of (mkScriptEntry 2 "John was a blacksmith" "") = "John was a blacksmith".
Proof.
  apply (base_prompt_strips_narrator 2 "John was a blacksmith" "").
  reflexivity.
Defined.

(** ** Video synthesizer: clips, requests and time *)

(** The clips are recorded in the order of the scenes, at most one per
    scene. *)
Lemma generate_clips_indices (E : Env) (fuel : nat) (imgs : Images)
    (entries : list ScriptEntry) :
  forall i acc w video_clips w',
    generate_clips E fuel imgs i entries acc w = (Ok video_clips, w') ->
    exists indices,
      video_clips = acc ++ map clip_path indices /\
      StronglySorted lt indices /\
      Forall (fun j => i <= j < i + length entries) indices /\
      length indices <= length entries.
Proof.
  induction entries as [|scene entries IH]; intros i acc w video_clips w' H;
    simpl in H.
  - injection H as <- <-. exists []. rewrite app_nil_r.
    split; [done|]. split; [constructor|]. split; [constructor|done].
  - bind_inv H clip w1 Hscene.
    destruct (IH _ _ _ _ _ H) as (indices & -> & Hsorted & Hbound & Hlen).
    assert (Hbound' : Forall (fun j => i <= j < i + length (scene :: entries)) indices).
    { eapply Forall_impl; [exact Hbound|]. simpl. intros j Hj. lia. }
    destruct (scene_clip_run _ _ _ _ _ _ _ _ Hscene)
      as [[-> _]|(video_data & -> & _)].
    + exists indices. split; [done|]. split; [done|]. split; [done|]. simpl. lia.
    + exists (i :: indices). split; [by rewrite <- app_assoc|]. split; [|split].
      * constructor; [done|]. eapply Forall_impl; [exact Hbound|].
        simpl. intros j Hj. lia.
      * constructor; [simpl; lia|done].
      * simpl. lia.
Qed.

(** X10. The loop of [create_video] records clips in the order of the
    scenes: the clips are scene_k.mp4 for strictly increasing k, each k
    the position, counted from 1, of an entry of the script; so there
    are never more clips than entries and no clip twice. *)
Theorem generate_clips_in_scene_order (E : Env) (fuel : nat) (imgs : Images)
    (sc : Script) (w w' : World) (video_clips : list string) :
  generate_clips E fuel imgs 0 (script sc) [] w = (Ok video_clips, w') ->
  exists indices,
    video_clips =
      map (fun j => path_join videos_dir ("scene_" +:+ pretty (S j) +:+ ".mp4")) indices /\
    StronglySorted lt indices /\
    Forall (fun j => j < length (script sc)) indices /\
    length video_clips <= length (script sc) /\
    NoDup video_clips.
Proof.
  intros H.
  destruct (generate_clips_indices _ _ _ _ _ _ _ _ _ H)
    as (indices & -> & Hsorted & Hbound & Hlen).
  exists indices. split; [done|]. split; [done|]. split; [|split].
  - eapply Forall_impl; [exact Hbound|]. simpl. intros j Hj. lia.
  - simpl. by rewrite length_map.
  - assert (Hdisk : clips_on_disk (0 + length (script sc))
                      ([] ++ map clip_path indices) (fs w')).
    { apply (generate_clips_on_disk E fuel imgs (script sc) 0 [] w); [|done].
      split; [apply NoDup_nil_2|]. intros clip Hin. by apply elem_of_nil in Hin. }
    apply Hdisk.
Qed.

Lemma generate_clips_in_scene_order_witness :
  exists indices,
    map clip_path [0; 1; 2; 3] =
      map (fun j => path_join videos_dir ("scene_" +:+ pretty (S j) +:+ ".mp4")) indices /\
    StronglySorted lt indices /\
    Forall (fun j => j < length (script doe_script)) indices /\
    length (map clip_path [0; 1; 2; 3]) <= length (script doe_script) /\
    NoDup (map clip_path [0; 1; 2; 3]).
Proof.
  apply (generate_clips_in_scene_order doe_env 5 doe_images doe_script
           (printed "Creating video..." doe_world) doe_clips_world).
  vm_compute. reflexivity.
Defined.

Lemma generate_clips_pairs (E : Env) (fuel : nat) (imgs : Images)
    (entries : list ScriptEntry) :
  forall i acc w video_clips w',
    generate_clips E fuel imgs i entries acc w = (Ok video_clips, w') ->
    forall j, j < length entries -> is_Some (images imgs !! (i + j)).
Proof.
  induction entries as [|scene entries IH]; intros i acc w video_clips w' H j Hj;
    simpl in *; [lia|].
  bind_inv H clip w1 Hscene.
  destruct j as [|j].
  - rewrite Nat.add_0_r. unfold scene_clip in Hscene.
    bind_inv Hscene u w2 Hprint. bind_inv Hscene img w3 Himg.
    apply getitem_ok in Himg as [Himg _]. eauto.
  - replace (i + S j) with (S i + j) by lia. eapply IH; [exact H|lia].
Qed.

Lemma stitch_range (E : Env) (video_clips : list string) (w w' : World)
    (video_path : string) :
  stitch E video_clips w = (Ok video_path, w') ->
  video_path = "" \/ video_path = final_video_path \/ video_path ∈ video_clips.
Proof.
  unfold stitch. destruct (1 <? length video_clips)%nat; intros H.
  - bind_inv H u1 w1 H1. bind_inv H u2 w2 H2. bind_inv H u3 w3 H3.
    bind_inv H u4 w4 H4. bind_inv H u5 w5 H5. injection H as <- _. auto.
  - destruct (length video_clips =? 1)%nat.
    + apply getitem_ok in H as [H _]. right. right.
      apply list_elem_of_lookup. eauto.
    + injection H as <- _. auto.
Qed.

(** X12. What [create_video] returns is the empty string, the path of
    final_video.mp4, or the path scene_k.mp4 of one scene of the
    script, k counted from 1. *)
Theorem create_video_result (E : Env) (fuel : nat) (story : Story)
    (sc : Script) (imgs : Images) (w w' : World) (video_path : string) :
  create_video E fuel story sc imgs w = (Ok video_path, w') ->
  video_path = "" \/
  video_path = path_join videos_dir "final_video.mp4" \/
  exists j, j < length (script sc) /\
    video_path = path_join videos_dir ("scene_" +:+ pretty (S j) +:+ ".mp4").
Proof.
  unfold create_video. intros H.
  bind_inv H u w1 Hprint. bind_inv H video_clips w2 Hloop.
  destruct (stitch_range _ _ _ _ _ H) as [->|[->|Hin]]; [auto|auto|].
  destruct (generate_clips_indices _ _ _ _ _ _ _ _ _ Hloop)
    as (indices & -> & _ & Hbound & _).
  simpl in Hin. apply list_elem_of_fmap in Hin as (j & -> & Hj).
  right. right. exists j. split; [|done].
  rewrite Forall_forall in Hbound. specialize (Hbound j Hj). simpl in Hbound. lia.
Qed.

Lemma create_video_result_witness :
  final_video_path = "" \/
  final_video_path = path_join videos_dir "final_video.mp4" \/
  exists j, j < length (script doe_script) /\
    final_video_path = path_join videos_dir ("scene_" +:+ pretty (S j) +:+ ".mp4").
Proof.
  apply (create_video_result doe_env 5 (mkStory []) doe_script doe_images doe_world
           (snd (create_video doe_env 5 (mkStory []) doe_script doe_images doe_world))).
  vm_compute. reflexivity.
Defined.

Lemma refreshes_app (r1 r2 : list Request) :
  refreshes (r1 ++ r2) = refreshes r1 + refreshes r2.
Proof. induction r1 as [|[] r1 IH]; simpl; lia. Qed.

Lemma submissions_app (r1 r2 : list Request) :
  submissions (r1 ++ r2) = submissions r1 + submissions r2.
Proof. induction r1 as [|[] r1 IH]; simpl; lia. Qed.

Lemma video_stage_same (w w' : World) :
  sent w' = sent w -> clock w' = clock w -> video_stage 0 w w'.
Proof.
  intros Hs Hc. exists []. split; [|done]. split; [by rewrite app_nil_r|].
  split; [constructor|]. simpl. lia.
Qed.

Lemma video_stage_mono (n m : nat) (w w' : World) :
  n <= m -> video_stage n w w' -> video_stage m w w'.
Proof. intros Hnm (requests & Hstep & Hjobs). exists requests. split; [done|lia]. Qed.

Lemma video_stage_trans (n m : nat) (w1 w2 w3 : World) :
  video_stage n w1 w2 -> video_stage m w2 w3 -> video_stage (n + m) w1 w3.
Proof.
  intros (r1 & (Hs1 & Hk1 & Hc1) & Hj1) (r2 & (Hs2 & Hk2 & Hc2) & Hj2).
  exists (r1 ++ r2). split; [split; [|split]|].
  - by rewrite Hs2, Hs1, app_assoc.
  - by apply Forall_app.
  - rewrite Hc2, Hc1, refreshes_app. lia.
  - rewrite submissions_app. lia.
Qed.

Lemma bind_video {A B} (n m : nat) (c : M A) (k : A -> M B) (w : World) :
  video_stage n w (snd (c w)) ->
  (forall a w1, video_stage m w1 (snd (k a w1))) ->
  video_stage (n + m) w (snd (bind c k w)).
Proof.
  intros Hc Hk. unfold bind. destruct (c w) as [[a| |] w1]; simpl in *.
  - by eapply video_stage_trans.
  - eapply video_stage_mono; [|exact Hc]. lia.
  - eapply video_stage_mono; [|exact Hc]. lia.
Qed.

Lemma getitem_world {A} (l : list A) (i : nat) (w : World) :
  snd (getitem l i w) = w.
Proof. unfold getitem. by destruct (l !! i). Qed.

Lemma poll_video (fuel : nat) (job : nat -> Operation) :
  forall k w, video_stage 0 w (snd (poll fuel job k w)).
Proof.
  induction fuel as [|fuel IH]; intros k w; rewrite poll_unfold;
    destruct (done (job k)); try by apply video_stage_same.
  unfold bind, sleep, send. simpl.
  eapply (video_stage_trans 0 0); [|apply IH].
  exists [OperationsGet (S k)]. split; [|done].
  split; [done|]. split; [by repeat constructor|]. simpl.
  unfold poll_interval. lia.
Qed.

Ltac video_same := apply video_stage_same; reflexivity.

Lemma scene_clip_video (E : Env) (fuel : nat) (imgs : Images) (i : nat)
    (scene : ScriptEntry) (w : World) :
  video_stage 1 w (snd (scene_clip E fuel imgs i scene w)).
Proof.
  unfold scene_clip.
  apply (bind_video 0 1); [video_same|]. intros _ w1.
  apply (bind_video 0 1); [rewrite getitem_world; video_same|]. intros img w2.
  apply (bind_video 0 1); [rewrite getitem_world; video_same|]. intros img' w3.
  apply (bind_video 1 0).
  { unfold call_generate_videos.
    exists [GenerateVideos
              (if (i =? 0)%nat then entry_description scene +:+ pan_instruction
               else entry_description scene) (start_image_path img)].
    split; [|done]. destruct (generate_videos E _ _ _ _); simpl;
      (split; [done|]; split; [by repeat constructor|]; simpl; lia). }
  intros job w4. apply (bind_video 0 0); [apply poll_video|]. intros operation w5.
  destruct (response operation) as [videos|].
  - apply (bind_video 0 0); [rewrite getitem_world; video_same|]. intros data w6.
    apply (bind_video 0 0); [video_same|]. intros _ w7. video_same.
  - apply (bind_video 0 0); [video_same|]. intros _ w6.
    apply (bind_video 0 0); [video_same|]. intros _ w7. video_same.
Qed.

Lemma generate_clips_video (E : Env) (fuel : nat) (imgs : Images)
    (entries : list ScriptEntry) :
  forall i acc w,
    video_stage (length entries) w (snd (generate_clips E fuel imgs i entries acc w)).
Proof.
  induction entries as [|scene entries IH]; intros i acc w; simpl.
  - video_same.
  - apply (bind_video 1 (length entries)); [apply scene_clip_video|].
    intros clip w1. apply IH.
Qed.

Lemma remove_clips_video (video_clips : list string) :
  forall w, video_stage 0 w (snd (remove_clips video_clips w)).
Proof.
  induction video_clips as [|clip rest IH]; intros w; simpl; [video_same|].
  apply (bind_video 0 0); [|intros _ w1; apply IH].
  unfold os_remove. destruct (fs w !! clip); video_same.
Qed.

Lemma stitch_video (E : Env) (video_clips : list string) (w : World) :
  video_stage 0 w (snd (stitch E video_clips w)).
Proof.
  unfold stitch. destruct (1 <? length video_clips)%nat.
  - apply (bind_video 0 0); [video_same|]. intros _ w1.
    apply (bind_video 0 0); [video_same|]. intros _ w2.
    apply (bind_video 0 0).
    { unfold subprocess_run_ffmpeg. exists [Shell ffmpeg_command]. split; [|done].
      destruct (ffmpeg_status E ffmpeg_command (fs w2) =? 0)%Z; simpl;
        (split; [done|]; split; [by repeat constructor|]; simpl; lia). }
    intros _ w3. apply (bind_video 0 0); [apply remove_clips_video|]. intros _ w4.
    apply (bind_video 0 0); [|intros _ w5; video_same].
    unfold os_remove. destruct (fs w4 !! file_list_path); video_same.
  - destruct (length video_clips =? 1)%nat.
    + rewrite getitem_world. video_same.
    + video_same.
Qed.

(** X13. However [create_video] ends, or for as long as it is followed,
    it has sent only video requests (job submissions, refreshes, the
    ffmpeg command), at most one submission per entry of the script,
    and it has slept exactly 15 time units per refresh. *)
Theorem create_video_requests (E : Env) (fuel : nat) (story : Story)
    (sc : Script) (imgs : Images) (w : World) :
  let w' := snd (create_video E fuel story sc imgs w) in
  exists requests,
    sent w' = sent w ++ requests /\
    Forall is_video_request requests /\
    submissions requests <= length (script sc) /\
    clock w' = (clock w + 15 * Z.of_nat (refreshes requests))%Z.
Proof.
  intros w'.
  assert (Hstage : video_stage (0 + (length (script sc) + 0)) w w').
  { subst w'. unfold create_video.
    apply bind_video; [video_same|]. intros _ w1.
    apply bind_video; [apply generate_clips_video|]. intros video_clips w2.
    apply stitch_video. }
  destruct Hstage as (requests & (Hsent & Hkind & Hclock) & Hjobs).
  exists requests. split; [done|]. split; [done|]. split; [lia|exact Hclock].
Qed.

(** X14. When ffmpeg exits with another status than 0, nothing is
    cleaned up: [create_video] raises with the manifest written and
    every clip still on disk. *)
Theorem create_video_failed_join (E : Env) (fuel : nat) (story : Story)
    (sc : Script) (imgs : Images) (w w1 : World) (video_clips : list string) :
  generate_clips E fuel imgs 0 (script sc) [] (printed "Creating video..." w) =
    (Ok video_clips, w1) ->
  2 <= length video_clips ->
  ffmpeg_status E ffmpeg_command
    (<[file_list_path := file_list video_clips]> (fs w1)) <> 0%Z ->
  exists w2,
    create_video E fuel story sc imgs w = (Raise (CalledProcessError ffmpeg_command), w2) /\
    fs w2 !! file_list_path = Some (file_list video_clips) /\
    (forall clip, clip ∈ video_clips -> is_Some (fs w2 !! clip)) /\
    sent w2 = sent w1 ++ [Shell ffmpeg_command].
Proof.
  intros Hloop Hlen Hstatus.
  assert (Hdisk : clips_on_disk (0 + length (script sc)) video_clips (fs w1)).
  { apply (generate_clips_on_disk E fuel imgs (script sc) 0 []
             (printed "Creating video..." w)); [|done].
    split; [apply NoDup_nil_2|]. intros clip Hin. by apply elem_of_nil in Hin. }
  unfold create_video. erewrite bind_step by reflexivity.
  rewrite (bind_step _ _ _ _ _ Hloop). unfold stitch.
  assert (Hmany : (1 <? length video_clips)%nat = true) by (apply Nat.ltb_lt; lia).
  rewrite Hmany. erewrite bind_step by reflexivity.
  erewrite bind_step by reflexivity.
  apply Z.eqb_neq in Hstatus.
  eexists. split.
  - apply bind_raise. unfold subprocess_run_ffmpeg. cbn [fs]. rewrite Hstatus.
    reflexivity.
  - cbn [fs sent]. split; [apply lookup_insert_eq|]. split; [|done].
    intros clip Hin. destruct Hdisk as [_ Hclips].
    destruct (Hclips _ Hin) as [_ Hfile].
    rewrite lookup_insert. case_decide; [by eexists|done].
Qed.

Lemma create_video_failed_join_witness :
  exists w2,
    create_video broken_ffmpeg_env 5 (mkStory []) doe_script doe_images doe_world =
      (Raise (CalledProcessError ffmpeg_command), w2) /\
    fs w2 !! file_list_path = Some (file_list (map clip_path [0; 1; 2; 3])) /\
    (forall clip, clip ∈ map clip_path [0; 1; 2; 3] -> is_Some (fs w2 !! clip)) /\
    sent w2 = sent doe_clips_world ++ [Shell ffmpeg_command].
Proof.
  apply (create_video_failed_join broken_ffmpeg_env 5 (mkStory []) doe_script
           doe_images doe_world doe_clips_world (map clip_path [0; 1; 2; 3])).
  - vm_compute. reflexivity.
  - simpl. lia.
  - vm_compute. discriminate.
Defined.

(** ** Orchestrator: the whole run *)

Lemma get_character_images_world (E : Env) (family_name : string) (w : World) :
  exists character_data,
    get_character_images E family_name w = (Ok character_data, after_fetch family_name w) /\
    (status_code (requests_get E (lookup_url family_name)) = 200%Z ->
     characters character_data = Some (json (requests_get E (lookup_url family_name)))) /\
    (status_code (requests_get E (lookup_url family_name)) <> 200%Z ->
     characters character_data = None).
Proof.
  destruct (decide (status_code (requests_get E (lookup_url family_name)) = 200%Z))
    as [H|H].
  - rewrite (get_character_images_200 E family_name w H). eexists.
    split; [reflexivity|]. split; [done|]. by intros [].
  - rewrite (get_character_images_not_200 E family_name w H). eexists.
    split; [reflexivity|]. split; [by intros ?|done].
Qed.

(** X15. When the lookup answers 200 with fewer than two records, the
    orchestrator stops in the Narrative Builder with [IndexError]:
    nothing is generated, no file is touched. *)
Theorem generate_family_story_video_too_few (E : Env) (fuel : nat)
    (family_name : string) (w : World) :
  status_code (requests_get E (lookup_url family_name)) = 200%Z ->
  length (json (requests_get E (lookup_url family_name))) < 2 ->
  generate_family_story_video E fuel family_name w =
    (Raise IndexError, printed "Creating story..." (before_story family_name w)).
Proof.
  intros Hstatus Hlen. unfold generate_family_story_video.
  erewrite bind_step by reflexivity.
  erewrite bind_step by (by apply get_character_images_200).
  erewrite bind_step by reflexivity.
  apply bind_raise.
  destruct (json (requests_get E (lookup_url family_name))) as [|r0 [|r1 rest]];
    simpl in Hlen; [reflexivity|reflexivity|lia].
Qed.

Lemma generate_family_story_video_too_few_witness :
  generate_family_story_video (records_env [john]) 5 "Doe" empty_world =
    (Raise IndexError, printed "Creating story..." (before_story "Doe" empty_world)).
Proof.
  apply (generate_family_story_video_too_few (records_env [john]) 5 "Doe" empty_world).
  - reflexivity.
  - simpl. lia.
Defined.

Lemma create_story_ok (family_history : FamilyHistory) (w w' : World) (story : Story) :
  create_story family_history w = (Ok story, w') ->
  2 <= length (records family_history) /\ length (scenes story) = 4.
Proof.
  destruct family_history as [[|r0 [|r1 rest]]]; try discriminate.
  intros [= <- _]. simpl. split; [lia|done].
Qed.

Lemma create_video_range (E : Env) (fuel : nat) (story : Story)
    (sc : Script) (imgs : Images) (w w' : World) (video_path : string) :
  create_video E fuel story sc imgs w = (Ok video_path, w') ->
  video_path = "" \/ video_path = final_video_path \/
  exists j, j < length (script sc) /\ video_path = clip_path j.
Proof.
  unfold create_video. intros H.
  bind_inv H u w1 Hprint. bind_inv H video_clips w2 Hloop.
  destruct (stitch_range _ _ _ _ _ H) as [->|[->|Hin]]; [auto|auto|].
  destruct (generate_clips_indices _ _ _ _ _ _ _ _ _ Hloop)
    as (indices & -> & _ & Hbound & _).
  simpl in Hin. apply list_elem_of_fmap in Hin as (j & -> & Hj).
  right. right. exists j. split; [|done].
  rewrite Forall_forall in Hbound. specialize (Hbound j Hj). simpl in Hbound. lia.
Qed.

(** X16. The orchestrator returns only when the lookup answered 200
    with at least two records, and what it returns is the empty string
    (no scene gave a clip), the path of final_video.mp4, or the path of
    scene_k.mp4 for one k from 1 to 4 (one scene gave a clip). *)
Theorem generate_family_story_video_returns (E : Env) (fuel : nat)
    (family_name : string) (w w' : World) (video_path : string) :
  generate_family_story_video E fuel family_name w = (Ok video_path, w') ->
  status_code (requests_get E (lookup_url family_name)) = 200%Z /\
  2 <= length (json (requests_get E (lookup_url family_name))) /\
  (video_path = "" \/
   video_path = path_join videos_dir "final_video.mp4" \/
   exists k, 1 <= k <= 4 /\
     video_path = path_join videos_dir ("scene_" +:+ pretty k +:+ ".mp4")).
Proof.
  unfold generate_family_story_video. intros H.
  bind_inv H u w1 Hprint. bind_inv H character_data w2 Hfetch.
  bind_inv H recs w3 Hrecs. bind_inv H story w4 Hstory.
  bind_inv H scr w5 Hscript. bind_inv H imgs w6 Himgs.
  destruct (get_character_images_world E family_name w1)
    as (cd & Hcd & H200 & Hnot200).
  rewrite Hcd in Hfetch. injection Hfetch as <- <-.
  unfold getitem_characters in Hrecs.
  destruct (decide (status_code (requests_get E (lookup_url family_name)) = 200%Z))
    as [Hstatus|Hstatus]; [|by rewrite (Hnot200 Hstatus) in Hrecs].
  rewrite (H200 Hstatus) in Hrecs. injection Hrecs as <- <-.
  destruct (create_story_ok _ _ _ _ Hstory) as [Hlen Hfour].
  split; [done|]. split; [exact Hlen|].
  injection Hscript as <- _.
  destruct (create_video_range _ _ _ _ _ _ _ _ H) as [->|[->|(j & Hj & ->)]];
    [auto|auto|].
  right. right. exists (S j). simpl in Hj. rewrite length_map, Hfour in Hj.
  split; [lia|done].
Qed.

Lemma generate_family_story_video_returns_witness :
  status_code (requests_get doe_env (lookup_url "Doe")) = 200%Z /\
  2 <= length (json (requests_get doe_env (lookup_url "Doe"))) /\
  (final_video_path = "" \/
   final_video_path = path_join videos_dir "final_video.mp4" \/
   exists k, 1 <= k <= 4 /\
     final_video_path = path_join videos_dir ("scene_" +:+ pretty k +:+ ".mp4")).
Proof.
  apply (generate_family_story_video_returns doe_env 5 "Doe" doe_world
           (snd (generate_family_story_video doe_env 5 "Doe" doe_world))).
  vm_compute. reflexivity.
Defined.

Lemma getitem_characters_world (character_images : CharacterData) (w : World) :
  snd (getitem_characters character_images w) = w.
Proof. unfold getitem_characters. by destruct (characters character_images). Qed.

Lemma create_story_world (family_history : FamilyHistory) (w : World) :
  snd (create_story family_history w) = printed "Creating story..." w.
Proof. by destruct family_history as [[|r0 [|r1 rest]]]. Qed.

Lemma create_images_step (E : Env) (sc : Script)
    (character_images : CharacterData) (w : World) :
  image_stage_step character_images (is_scene_image_path (script sc)) w
    (snd (create_images E sc character_images w)).
Proof.
  unfold create_images.
  apply bind_world_rel; [apply image_stage_step_trans|apply image_stage_step_print|].
  intros u w1. apply bind_world_rel; [apply image_stage_step_trans| |].
  - apply for_each_scene_world.
  - intros pairs w2. apply image_stage_step_refl.
Qed.

Lemma create_video_stage (E : Env) (fuel : nat) (story : Story)
    (sc : Script) (imgs : Images) (w : World) :
  video_stage (length (script sc)) w (snd (create_video E fuel story sc imgs w)).
Proof.
  apply (video_stage_mono (0 + (length (script sc) + 0))); [lia|].
  unfold create_video.
  apply bind_video; [video_same|]. intros _ w1.
  apply bind_video; [apply generate_clips_video|]. intros video_clips w2.
  apply stitch_video.
Qed.

(** X17. However the orchestrator ends, or for as long as it is
    followed, what it has sent is the one lookup request, then image
    generation requests only, then video requests only, with at most
    four video jobs submitted; and the time it has slept is 15 units
    per refresh of a video job. *)
Theorem generate_family_story_video_requests (E : Env) (fuel : nat)
    (family_name : string) (w : World) :
  let w' := snd (generate_family_story_video E fuel family_name w) in
  exists generations videos,
    sent w' = sent w ++ HttpGet (lookup_url family_name) :: generations ++ videos /\
    Forall (fun r => exists parts prompt, r = GenerateContent parts prompt) generations /\
    Forall is_video_request videos /\
    submissions videos <= 4 /\
    clock w' = (clock w + 15 * Z.of_nat (refreshes videos))%Z.
Proof.
  intros w'. subst w'. unfold generate_family_story_video.
  erewrite bind_step by reflexivity.
  destruct (get_character_images_world E family_name
              (printed ("Starting video generation for the " +:+ family_name
                        +:+ " family...") w)) as (character_data & Hfetch & _).
  rewrite (bind_step _ _ _ _ _ Hfetch).
  fold (before_story family_name w). set (w2 := before_story family_name w).
  assert (Hclose : forall w3 generations videos,
    sent w3 = sent w2 ++ generations ++ videos ->
    Forall (fun r => exists parts prompt, r = GenerateContent parts prompt) generations ->
    Forall is_video_request videos ->
    submissions videos <= 4 ->
    clock w3 = (clock w2 + 15 * Z.of_nat (refreshes videos))%Z ->
    exists generations videos,
      sent w3 = sent w ++ HttpGet (lookup_url family_name) :: generations ++ videos /\
      Forall (fun r => exists parts prompt, r = GenerateContent parts prompt) generations /\
      Forall is_video_request videos /\
      submissions videos <= 4 /\
      clock w3 = (clock w + 15 * Z.of_nat (refreshes videos))%Z).
  { intros w3 generations videos Hsent Hgen Hvid Hjobs Hclock.
    exists generations, videos. split; [|done].
    rewrite Hsent. subst w2. simpl. by rewrite <- app_assoc. }
  clearbody w2.
  assert (Hnothing : forall w3, sent w3 = sent w2 -> clock w3 = clock w2 ->
    exists generations videos,
      sent w3 = sent w ++ HttpGet (lookup_url family_name) :: generations ++ videos /\
      Forall (fun r => exists parts prompt, r = GenerateContent parts prompt) generations /\
      Forall is_video_request videos /\
      submissions videos <= 4 /\
      clock w3 = (clock w + 15 * Z.of_nat (refreshes videos))%Z).
  { intros w3 Hsent Hclock. apply (Hclose w3 [] []); simpl;
      [by rewrite app_nil_r|apply Forall_nil_2|apply Forall_nil_2|lia|lia]. }
  pose proof (getitem_characters_world character_data w2) as Hw3.
  destruct (getitem_characters character_data w2) as [[recs|e|] w3] eqn:Hrecs;
    simpl in Hw3; subst w3;
    [|rewrite (bind_raise _ _ _ _ _ Hrecs); by apply Hnothing
     |rewrite (bind_stop _ _ _ _ Hrecs); by apply Hnothing].
  rewrite (bind_step _ _ _ _ _ Hrecs).
  pose proof (create_story_world (mkFamilyHistory recs) w2) as Hw3.
  destruct (create_story (mkFamilyHistory recs) w2) as [[story|e|] w3] eqn:Hstory;
    simpl in Hw3; subst w3;
    [|rewrite (bind_raise _ _ _ _ _ Hstory); by apply Hnothing
     |rewrite (bind_stop _ _ _ _ Hstory); by apply Hnothing].
  rewrite (bind_step _ _ _ _ _ Hstory).
  erewrite bind_step by reflexivity.
  set (scr := mkScript (map script_entry (scenes story))).
  set (w4 := mkWorld _ _ _ _).
  destruct (create_images_step E scr character_data w4)
    as (Hclock5 & _ & _ & generations & Hsent5 & Hgen & _).
  assert (Hfour : length (script scr) = 4).
  { subst scr. simpl. rewrite length_map.
    by destruct (create_story_ok _ _ _ _ Hstory). }
  destruct (create_images E scr character_data w4) as [[imgs|e|] w5] eqn:Himgs;
    simpl in Hclock5, Hsent5;
    [|rewrite (bind_raise _ _ _ _ _ Himgs);
      apply (Hclose w5 generations []);
        [by rewrite app_nil_r|done|apply Forall_nil_2|simpl; lia|simpl; rewrite Hclock5; simpl; lia]
     |rewrite (bind_stop _ _ _ _ Himgs);
      apply (Hclose w5 generations []);
        [by rewrite app_nil_r|done|apply Forall_nil_2|simpl; lia|simpl; rewrite Hclock5; simpl; lia]].
  rewrite (bind_step _ _ _ _ _ Himgs).
  destruct (create_video_stage E fuel story scr imgs w5)
    as (videos & (Hsent6 & Hvid & Hclock6) & Hjobs).
  apply (Hclose _ generations videos).
  - rewrite Hsent6, Hsent5. simpl. by rewrite <- app_assoc.
  - done.
  - done.
  - lia.
  - rewrite Hclock6, Hclock5. simpl. unfold poll_interval. lia.
Qed.

(** * The lookup service *)

Example doe_lookup :
  do_GET doe_service doe_files "/mcp?family_name=Doe" =
    (Replied 200
       (JsonBody [mkServedRecord (JString "J. Doe") (JString "Springfield") (image_url john);
                  mkServedRecord (JString "Jane") unknown (image_url jane)]),
     ["jpg:john"; "jpg:jane"]).
Proof. vm_compute. reflexivity. Qed.

(** X18. Under /mcp, a request without a family name, or with an empty
    one, gets 400, whatever is on disk; a request for a family that the
    registry does not know gets 404.  Neither asks the model. *)
Theorem do_GET_400_404 (S : Service) (files : gmap string string) (path : string) :
  String.prefix "/mcp" path = true ->
  (query_family_name S path = None \/ query_family_name S path = Some "" ->
   do_GET S files path =
     (Replied 400 (TextBody "Missing family_name parameter"), [])) /\
  (forall family_name text data,
     query_family_name S path = Some family_name ->
     family_name <> "" ->
     files !! mcp_data_path = Some text ->
     load_registry S text = Some data ->
     data !! family_name = None ->
     do_GET S files path = (Replied 404 (TextBody "Family not found"), [])).
Proof.
  intros Hmcp. unfold do_GET. rewrite Hmcp. split.
  - by intros [-> | ->].
  - intros family_name text data -> Hname Hfile Hload Hunknown.
    destruct family_name as [|c rest]; [done|].
    by rewrite Hfile, Hload, Hunknown.
Qed.

Lemma do_GET_400_404_witness :
  do_GET doe_service doe_files "/mcp" =
    (Replied 400 (TextBody "Missing family_name parameter"), []) /\
  do_GET doe_service doe_files "/mcp?family_name=Smith" =
    (Replied 404 (TextBody "Family not found"), []).
Proof.
  split.
  - apply (proj1 (do_GET_400_404 doe_service doe_files "/mcp" eq_refl)).
    by left.
  - apply (proj2 (do_GET_400_404 doe_service doe_files "/mcp?family_name=Smith" eq_refl)
             "Smith" "{...}" doe_registry); [reflexivity|done|reflexivity..].
Defined.

Lemma describe_characters_served (S : Service) (files : gmap string string)
    (entries : list RegistryEntry) :
  forall calls records calls',
    describe_characters S files entries calls = (inr records, calls') ->
    exists sent_bytes,
      calls' = calls ++ sent_bytes /\
      Forall2 (fun entry image_bytes =>
                 files !! portrait_path S (registered_image_url entry) = Some image_bytes)
              entries sent_bytes /\
      map served_image_url records = map registered_image_url entries.
Proof.
  induction entries as [|entry entries IH]; intros calls records calls'; simpl.
  - intros [= <- <-]. exists []. by rewrite app_nil_r.
  - destruct (files !! portrait_path S (registered_image_url entry))
      as [image_bytes|] eqn:Hfile; [|discriminate].
    destruct (answer_metadata S _) as [e|metadata]; [discriminate|].
    destruct (describe_characters S files entries (calls ++ [image_bytes]))
      as [[e|rest] calls''] eqn:Hrest; [discriminate|].
    intros [= <- <-].
    destruct (IH _ _ _ Hrest) as (sent_bytes & -> & Hbytes & Hurls).
    exists (image_bytes :: sent_bytes). split; [by rewrite <- app_assoc|].
    split; [by constructor|]. simpl. by rewrite Hurls.
Qed.

(** X19. A request outside /mcp is handed to the handler of the base
    class, and the model is not asked.  For a request under /mcp the
    handler either raises or replies itself, and then with 400, 404 or
    200 only.  A 200 carries one record per character that the registry
    lists for the family, in the order of the registry and with its
    image URL unchanged, and the model was asked once per character,
    with the bytes of its portrait; a 400 or a 404 was sent without
    asking the model. *)
Theorem do_GET_replied (S : Service) (files : gmap string string) (path : string) :
  (String.prefix "/mcp" path = false ->
   do_GET S files path = (StaticFile path, [])) /\
  (String.prefix "/mcp" path = true ->
   forall reply calls,
     do_GET S files path = (reply, calls) ->
     (reply = Replied 400 (TextBody "Missing family_name parameter") /\ calls = []) \/
     (reply = Replied 404 (TextBody "Family not found") /\ calls = []) \/
     (exists family_name text data entries records,
        reply = Replied 200 (JsonBody records) /\
        query_family_name S path = Some family_name /\
        files !! mcp_data_path = Some text /\
        load_registry S text = Some data /\
        data !! family_name = Some entries /\
        map served_image_url records = map registered_image_url entries /\
        Forall2 (fun entry image_bytes =>
                   files !! portrait_path S (registered_image_url entry) =
                     Some image_bytes)
                entries calls) \/
     (exists e, reply = HandlerRaised e)).
Proof.
  unfold do_GET. split; intros Hmcp; rewrite Hmcp; [done|].
  intros reply calls.
  destruct (query_family_name S path) as [[|c rest]|] eqn:Hquery;
    [intros [= <- <-]; auto| |intros [= <- <-]; auto].
  destruct (files !! mcp_data_path) as [text|] eqn:Hfile;
    [|intros [= <- _]; eauto 10].
  destruct (load_registry S text) as [data|] eqn:Hload;
    [|intros [= <- _]; eauto 10].
  destruct (data !! String c rest) as [entries|] eqn:Hfamily;
    [|intros [= <- <-]; auto].
  destruct (describe_characters S files entries []) as [[e|records] calls'] eqn:Hrun;
    [intros [= <- _]; eauto 10|].
  intros [= <- <-]. right. right. left.
  destruct (describe_characters_served _ _ _ _ _ _ Hrun) as (sent_bytes & -> & Hbytes & Hurls).
  exists (String c rest), text, data, entries, records. simpl. eauto 10.
Qed.

Lemma do_GET_replied_witness :
  do_GET doe_service doe_files "/index.html" = (StaticFile "/index.html", []) /\
  exists family_name text data entries records,
    Replied 200
      (JsonBody [mkServedRecord (JString "J. Doe") (JString "Springfield") (image_url john);
                 mkServedRecord (JString "Jane") unknown (image_url jane)]) =
      Replied 200 (JsonBody records) /\
    query_family_name doe_service "/mcp?family_name=Doe" = Some family_name /\
    doe_files !! mcp_data_path = Some text /\
    load_registry doe_service text = Some data /\
    data !! family_name = Some entries /\
    map served_image_url records = map registered_image_url entries /\
    Forall2 (fun entry image_bytes =>
               doe_files !! portrait_path doe_service (registered_image_url entry) =
                 Some image_bytes)
            entries ["jpg:john"; "jpg:jane"].
Proof.
  split.
  - apply (proj1 (do_GET_replied doe_service doe_files "/index.html")). reflexivity.
  - destruct (proj2 (do_GET_replied doe_service doe_files "/mcp?family_name=Doe")
                eq_refl
                (Replied 200
                   (JsonBody [mkServedRecord (JString "J. Doe") (JString "Springfield")
                                (image_url john);
                              mkServedRecord (JString "Jane") unknown (image_url jane)]))
                ["jpg:john"; "jpg:jane"])
      as [[H _]|[[H _]|[H|[e H]]]]; [by vm_compute|discriminate H|discriminate H|exact H|discriminate H].
Defined.

Lemma describe_characters_all (S : Service) (files : gmap string string)
    (entries : list RegistryEntry) :
  (forall index image_bytes, extract S index image_bytes <> ModelRaised) ->
  (forall text, json_loads S text <> Some JNotObject) ->
  Forall (fun entry =>
            is_Some (files !! portrait_path S (registered_image_url entry))) entries ->
  forall calls,
    exists records calls',
      describe_characters S files entries calls = (inr records, calls') /\
      length records = length entries.
Proof.
  intros Hmodel Hjson Hfiles. induction Hfiles as [|entry entries [image_bytes Hfile] _ IH];
    intros calls; simpl.
  - by eexists [], calls.
  - rewrite Hfile.
    assert (Hmeta : exists metadata,
      answer_metadata S (extract S (length calls) image_bytes) = inr metadata).
    { unfold answer_metadata.
      destruct (extract S (length calls) image_bytes) as [| |text] eqn:Hanswer.
      - by destruct (Hmodel _ _ Hanswer).
      - by eexists.
      - destruct (json_loads S (clean_answer S text)) as [[fields|]|] eqn:Hloads.
        + by eexists.
        + by destruct (Hjson _ Hloads).
        + by eexists. }
    destruct Hmeta as [metadata ->].
    destruct (IH (calls ++ [image_bytes])) as (records & calls' & -> & Hlen).
    eexists _, calls'. split; [reflexivity|]. simpl. by rewrite Hlen.
Qed.

(** X20. When the registry file is there and is JSON, the family is
    registered, every portrait of the family is on disk, the model call
    never raises and its answer is never JSON that is not an object,
    the handler replies with 200 and one record per character; an
    answer that is not JSON at all does not prevent this. *)
Theorem do_GET_200 (S : Service) (files : gmap string string) (path : string)
    (family_name text : string) (data : gmap string (list RegistryEntry))
    (entries : list RegistryEntry) :
  String.prefix "/mcp" path = true ->
  query_family_name S path = Some family_name ->
  family_name <> "" ->
  files !! mcp_data_path = Some text ->
  load_registry S text = Some data ->
  data !! family_name = Some entries ->
  Forall (fun entry =>
            is_Some (files !! portrait_path S (registered_image_url entry))) entries ->
  (forall index image_bytes, extract S index image_bytes <> ModelRaised) ->
  (forall text, json_loads S text <> Some JNotObject) ->
  exists records calls,
    do_GET S files path = (Replied 200 (JsonBody records), calls) /\
    length records = length entries /\ length calls = length entries.
Proof.
  intros Hmcp Hquery Hname Hfile Hload Hfamily Hfiles Hmodel Hjson.
  unfold do_GET. rewrite Hmcp, Hquery.
  destruct family_name as [|c rest]; [done|].
  rewrite Hfile, Hload, Hfamily.
  destruct (describe_characters_all S files entries Hmodel Hjson Hfiles [])
    as (records & calls & Hrun & Hlen).
  rewrite Hrun. exists records, calls. split; [done|]. split; [done|].
  destruct (describe_characters_served _ _ _ _ _ _ Hrun) as (sent_bytes & -> & Hbytes & _).
  simpl. symmetry. by eapply Forall2_length.
Qed.

Lemma do_GET_200_witness :
  exists records calls,
    do_GET doe_service doe_files "/mcp?family_name=Doe" =
      (Replied 200 (JsonBody records), calls) /\
    length records = length doe_entries /\ length calls = length doe_entries.
Proof.
  apply (do_GET_200 doe_service doe_files "/mcp?family_name=Doe" "Doe" "{...}"
           doe_registry doe_entries); try reflexivity; try done.
  - repeat constructor; by eexists.
  - intros index image_bytes. simpl. by destruct (String.eqb image_bytes "jpg:john").
  - intros text. simpl. by destruct (String.eqb text "{john}").
Defined.

(** * Entry point and deployment *)



Lemma matching_agents_first (existing_agents : list DeployedAgent)
    (agent_name : string) (agent : DeployedAgent) (others : list DeployedAgent) :
  matching_agents existing_agents agent_name = agent :: others ->
  exists before after,
    existing_agents = before ++ agent :: after /\
    display_name agent = agent_name /\
    Forall (fun other => display_name other <> agent_name) before.
Proof.
  unfold matching_agents. induction existing_agents as [|a rest IH]; [done|].
  rewrite filter_cons. case_decide as Hname.
  - intros [= -> _]. exists [], rest. split; [done|]. split; [done|constructor].
  - intros H. destruct (IH H) as (before & after & -> & Hagent & Hbefore).
    exists (a :: before), after. split; [done|]. split; [done|by constructor].
Qed.

(** X22. The deployment creates an agent only when no deployed agent
    has the display name asked for; otherwise it updates, and the agent
    it updates is the first of the listing with that display name. *)
Theorem deploy_action_first_match (existing_agents : list DeployedAgent)
    (agent_name : string) :
  (deploy_action existing_agents agent_name = CreateAgent <->
   Forall (fun agent => display_name agent <> agent_name) existing_agents) /\
  (forall name,
     deploy_action existing_agents agent_name = UpdateAgent name ->
     exists before agent after,
       existing_agents = before ++ agent :: after /\
       display_name agent = agent_name /\
       resource_name agent = name /\
       Forall (fun other => display_name other <> agent_name) before).
Proof.
  unfold deploy_action. split.
  - destruct (matching_agents existing_agents agent_name) as [|agent others] eqn:Hm.
    + split; [intros _|done]. unfold matching_agents in Hm.
      apply Forall_forall. intros agent Hin Hname.
      assert (Hfiltered : agent ∈ filter (fun a => display_name a = agent_name)
                                   existing_agents)
        by (by apply list_elem_of_filter).
      rewrite Hm in Hfiltered. by apply elem_of_nil in Hfiltered.
    + split; [done|]. intros Hall.
      destruct (matching_agents_first _ _ _ _ Hm) as (before & after & -> & Hname & _).
      apply Forall_app in Hall as [_ Hall]. by apply Forall_cons in Hall as [Hne _].
  - intros name.
    destruct (matching_agents existing_agents agent_name) as [|agent others] eqn:Hm;
      [done|].
    intros [= <-].
    destruct (matching_agents_first _ _ _ _ Hm) as (before & after & -> & Hname & Hbefore).
    by exists before, agent, after.
Qed.

(** X23. [register_operations] keeps every operation of the base class
    under its mode and adds register_feedback, last, under the default
    mode; the other modes are as they were. *)
Theorem register_operations_extends (operations : gmap string (list string)) :
  (forall mode operation,
     operation ∈ default [] (operations !! mode) ->
     operation ∈ default [] (register_operations operations !! mode)) /\
  register_operations operations !! "" =
    Some (default [] (operations !! "") ++ ["register_feedback"]) /\
  (forall mode, mode <> "" ->
     register_operations operations !! mode = operations !! mode).
Proof.
  unfold register_operations. split; [|split].
  - intros mode operation Hin. rewrite lookup_insert. case_decide as Hmode.
    + subst mode. simpl. apply elem_of_app. by left.
    + done.
  - apply lookup_insert_eq.
  - intros mode Hmode. by rewrite lookup_insert_ne.
Qed.

(** * When the pipeline returns *)

Lemma after_polls_fs (n : nat) :
  forall k w, fs (after_polls n k w) = fs w.
Proof. induction n as [|n IH]; intros k w; simpl; [done|by rewrite IH]. Qed.

(** A scene whose job completes within the fuel: the clip, when the job
    has a response, or nothing and no file change. *)
Lemma scene_clip_completes (E : Env) (fuel : nat) (imgs : Images) (i : nat)
    (scene : ScriptEntry) (img : ImagePair) (job : nat -> Operation) (m : nat)
    (w : World) :
  images imgs !! i = Some img ->
  generate_videos E (length (sent w))
    (if (i =? 0)%nat then entry_description scene +:+ pan_instruction
     else entry_description scene)
    (start_image_path img) (fs w) = Some job ->
  m <= fuel -> done (job m) = true ->
  (forall k videos, response (job k) = Some videos -> videos <> []) ->
  exists clip w',
    scene_clip E fuel imgs i scene w = (Ok clip, w') /\
    ((forall k, response (job k) = None) -> clip = None /\ fs w' = fs w).
Proof.
  intros Himg Hjob Hm Hdone Hvideos. unfold scene_clip.
  erewrite bind_step by reflexivity.
  erewrite bind_step by (unfold getitem; rewrite Himg; reflexivity).
  erewrite bind_step by (unfold getitem; rewrite Himg; reflexivity).
  erewrite bind_step
    by (unfold call_generate_videos; cbn [fs sent]; rewrite Hjob; reflexivity).
  destruct (first_done job m 0 Hdone) as (m' & Hm' & Hbefore & Hat).
  erewrite bind_step by (apply poll_first_done; [exact Hbefore|exact Hat|lia]).
  simpl in *. destruct (response (job m')) as [videos|] eqn:Hresponse.
  - destruct videos as [|video_data rest]; [by destruct (Hvideos _ _ Hresponse)|].
    erewrite bind_step by reflexivity. erewrite bind_step by reflexivity.
    eexists _, _. split; [reflexivity|]. intros Hnone.
    rewrite Hnone in Hresponse. discriminate.
  - erewrite bind_step by reflexivity. erewrite bind_step by reflexivity.
    eexists _, _. split; [reflexivity|]. intros _. split; [done|].
    cbn [fs]. by rewrite after_polls_fs.
Qed.

Lemma generate_clips_completes (E : Env) (fuel : nat) (imgs : Images)
    (entries : list ScriptEntry) :
  videos_complete E fuel ->
  forall i acc w,
    i + length entries <= length (images imgs) ->
    exists video_clips w',
      generate_clips E fuel imgs i entries acc w = (Ok video_clips, w').
Proof.
  intros Hcomplete. induction entries as [|scene entries IH]; intros i acc w Hlen;
    simpl in *; [by eexists _, _|].
  destruct (lookup_lt_is_Some_2 (images imgs) i) as [img Himg]; [lia|].
  destruct (Hcomplete (length (sent w))
              (if (i =? 0)%nat then entry_description scene +:+ pan_instruction
               else entry_description scene)
              (start_image_path img) (fs w))
    as (job & m & Hjob & Hm & Hdone & Hvideos).
  destruct (scene_clip_completes E fuel imgs i scene img job m w
              Himg Hjob Hm Hdone Hvideos) as (clip & w1 & Hrun & _).
  rewrite (bind_step _ _ _ _ _ Hrun). apply IH. lia.
Qed.

Lemma stitch_completes (E : Env) (bound : nat) (video_clips : list string) (w : World) :
  ffmpeg_succeeds E ->
  clips_on_disk bound video_clips (fs w) ->
  exists video_path w', stitch E video_clips w = (Ok video_path, w').
Proof.
  intros Hffmpeg Hdisk.
  destruct video_clips as [|c0 [|c1 rest]] eqn:Hclips.
  - by eexists _, _.
  - by eexists _, _.
  - rewrite <- Hclips in *.
    destruct (stitch_many E bound video_clips w Hdisk) as (w' & Hrun & _);
      [rewrite Hclips; simpl; lia|apply Hffmpeg|].
    by eexists _, _.
Qed.

(** X24. [create_video] returns whenever there is an image pair for
    every entry of the script, every video job is accepted and reports
    completion within the refreshes followed, with at least one video
    in a response, and ffmpeg exits with 0. *)
Theorem create_video_returns (E : Env) (fuel : nat) (story : Story)
    (sc : Script) (imgs : Images) (w : World) :
  videos_complete E fuel ->
  ffmpeg_succeeds E ->
  length (script sc) <= length (images imgs) ->
  exists video_path w', create_video E fuel story sc imgs w = (Ok video_path, w').
Proof.
  intros Hcomplete Hffmpeg Hlen. unfold create_video.
  erewrite bind_step by reflexivity.
  destruct (generate_clips_completes E fuel imgs (script sc) Hcomplete 0 []
              (printed "Creating video..." w)) as (video_clips & w1 & Hloop); [lia|].
  rewrite (bind_step _ _ _ _ _ Hloop).
  apply (stitch_completes E (0 + length (script sc))); [done|].
  apply (generate_clips_on_disk E fuel imgs (script sc) 0 []
           (printed "Creating video..." w)); [|done].
  split; [apply NoDup_nil_2|]. intros clip Hin. by apply elem_of_nil in Hin.
Qed.

Lemma doe_videos_complete : videos_complete doe_env 5.
Proof.
  intros index prompt location files. eexists _, 2. split; [reflexivity|].
  split; [lia|]. split; [reflexivity|].
  intros k videos. destruct k as [|[|k]]; simpl; intros H; try discriminate H.
  injection H as <-. discriminate.
Qed.

Lemma create_video_returns_witness :
  exists video_path w',
    create_video doe_env 5 (mkStory []) doe_script doe_images doe_world =
      (Ok video_path, w').
Proof.
  apply (create_video_returns doe_env 5 (mkStory []) doe_script doe_images doe_world).
  - apply doe_videos_complete.
  - by intros files.
  - vm_compute. lia.
Defined.

Lemma generate_clips_fail (E : Env) (fuel : nat) (imgs : Images)
    (entries : list ScriptEntry) :
  videos_fail E fuel ->
  forall i acc w,
    i + length entries <= length (images imgs) ->
    exists w',
      generate_clips E fuel imgs i entries acc w = (Ok acc, w') /\ fs w' = fs w.
Proof.
  intros Hfail. induction entries as [|scene entries IH]; intros i acc w Hlen;
    simpl in *; [by eexists|].
  destruct (lookup_lt_is_Some_2 (images imgs) i) as [img Himg]; [lia|].
  destruct (Hfail (length (sent w))
              (if (i =? 0)%nat then entry_description scene +:+ pan_instruction
               else entry_description scene)
              (start_image_path img) (fs w))
    as (job & m & Hjob & Hm & Hdone & Hnone).
  destruct (scene_clip_completes E fuel imgs i scene img job m w
              Himg Hjob Hm Hdone) as (clip & w1 & Hrun & Hclip).
  { intros k videos Hk. by rewrite Hnone in Hk. }
  destruct (Hclip Hnone) as [-> Hfs].
  rewrite (bind_step _ _ _ _ _ Hrun).
  destruct (IH (S i) acc w1) as (w' & Hrest & Hfs'); [lia|].
  exists w'. split; [done|congruence].
Qed.

(** X25. When there is an image pair for every entry of the script and
    every video job ends without a response, [create_video] returns
    the empty string and has changed no file: no clip, no manifest, no
    output of ffmpeg. *)
Theorem create_video_all_failed (E : Env) (fuel : nat) (story : Story)
    (sc : Script) (imgs : Images) (w : World) :
  videos_fail E fuel ->
  length (script sc) <= length (images imgs) ->
  exists w', create_video E fuel story sc imgs w = (Ok "", w') /\ fs w' = fs w.
Proof.
  intros Hfail Hlen. unfold create_video.
  erewrite bind_step by reflexivity.
  destruct (generate_clips_fail E fuel imgs (script sc) Hfail 0 []
              (printed "Creating video..." w)) as (w1 & Hloop & Hfs); [lia|].
  rewrite (bind_step _ _ _ _ _ Hloop). by exists w1.
Qed.

Lemma create_video_all_failed_witness :
  exists w',
    create_video no_video_env 5 (mkStory []) doe_script doe_images doe_world = (Ok "", w') /\
    fs w' = fs doe_world.
Proof.
  apply (create_video_all_failed no_video_env 5 (mkStory []) doe_script doe_images
           doe_world).
  - intros index prompt location files. eexists _, 0.
    split; [reflexivity|]. split; [lia|]. split; reflexivity.
  - vm_compute. lia.
Defined.

Lemma create_video_completes (E : Env) (fuel : nat) (story : Story)
    (sc : Script) (imgs : Images) (w : World) :
  videos_complete E fuel ->
  ffmpeg_succeeds E ->
  length (script sc) <= length (images imgs) ->
  exists video_path w', create_video E fuel story sc imgs w = (Ok video_path, w').
Proof.
  intros Hcomplete Hffmpeg Hlen. unfold create_video.
  erewrite bind_step by reflexivity.
  destruct (generate_clips_completes E fuel imgs (script sc) Hcomplete 0 []
              (printed "Creating video..." w)) as (video_clips & w1 & Hloop); [lia|].
  rewrite (bind_step _ _ _ _ _ Hloop).
  apply (stitch_completes E (0 + length (script sc))); [done|].
  apply (generate_clips_on_disk E fuel imgs (script sc) 0 []
           (printed "Creating video..." w)); [|done].
  split; [apply NoDup_nil_2|]. intros clip Hin. by apply elem_of_nil in Hin.
Qed.

(** X26. The orchestrator returns a path whenever the lookup answers
    200 with at least two records whose portraits are on disk, every
    video job is accepted and reports completion within the refreshes
    followed, with at least one video in a response, and ffmpeg exits
    with 0. *)
Theorem generate_family_story_video_completes (E : Env) (fuel : nat)
    (family_name : string) (w : World) :
  status_code (requests_get E (lookup_url family_name)) = 200%Z ->
  2 <= length (json (requests_get E (lookup_url family_name))) ->
  (forall character,
     character ∈ json (requests_get E (lookup_url family_name)) ->
     is_Some (fs w !! urlparse_path E (image_url character))) ->
  videos_complete E fuel ->
  ffmpeg_succeeds E ->
  exists video_path w',
    generate_family_story_video E fuel family_name w = (Ok video_path, w').
Proof.
  intros Hstatus Hlen Hportraits Hcomplete Hffmpeg.
  unfold generate_family_story_video.
  erewrite bind_step by reflexivity.
  erewrite bind_step by (by apply get_character_images_200).
  erewrite bind_step by reflexivity.
  set (recs := json (requests_get E (lookup_url family_name))) in *.
  destruct recs as [|r0 [|r1 rest]] eqn:Hrecs; simpl in Hlen; try lia.
  erewrite bind_step by reflexivity.
  erewrite bind_step by reflexivity.
  set (story := mkStory _).
  set (scr := mkScript (map script_entry (scenes story))).
  set (cd := mkCharacterData (Some (r0 :: r1 :: rest)) None).
  set (w4 := mkWorld _ _ _ _).
  destruct (for_each_scene_readable E cd (r0 :: r1 :: rest) r0 r1 eq_refl eq_refl eq_refl
              (script scr) (printed "Creating images..." w4))
    as (pairs & w5 & Himgs & Hnums & _).
  { intros scene character _ _ Hin _. by apply Hportraits. }
  assert (Hcreate : create_images E scr cd w4 = (Ok (mkImages pairs), w5)).
  { unfold create_images. erewrite bind_step by reflexivity.
    by rewrite (bind_step _ _ _ _ _ Himgs). }
  rewrite (bind_step _ _ _ _ _ Hcreate).
  apply create_video_completes; [done|done|].
  apply (f_equal length) in Hnums. rewrite !length_map in Hnums.
  cbn [images]. rewrite Hnums. lia.
Qed.

Lemma generate_family_story_video_completes_witness :
  exists video_path w',
    generate_family_story_video doe_env 5 "Doe" doe_world = (Ok video_path, w').
Proof.
  apply (generate_family_story_video_completes doe_env 5 "Doe" doe_world).
  - reflexivity.
  - simpl. lia.
  - intros character Hin.
    apply elem_of_cons in Hin as [->|Hin]; [by eexists|].
    apply elem_of_cons in Hin as [->|Hin]; [by eexists|].
    by apply elem_of_nil in Hin.
  - apply doe_videos_complete.
  - by intros files.
Defined.

Lemma deploy_action_first_match_witness :
  exists before agent after,
    [mkDeployedAgent "other" "agents/1"; mkDeployedAgent "adk-demo" "agents/2";
     mkDeployedAgent "adk-demo" "agents/3"] = before ++ agent :: after /\
    display_name agent = "adk-demo" /\
    resource_name agent = "agents/2" /\
    Forall (fun other => display_name other <> "adk-demo") before.
Proof.
  apply (proj2 (deploy_action_first_match
                  [mkDeployedAgent "other" "agents/1"; mkDeployedAgent "adk-demo" "agents/2";
                   mkDeployedAgent "adk-demo" "agents/3"] "adk-demo") "agents/2").
  reflexivity.
Defined.

Lemma register_operations_extends_witness :
  "stream_query" ∈
    default [] (register_operations (<["stream" := ["stream_query"]]> ∅) !! "stream").
Proof.
  apply (proj1 (register_operations_extends (<["stream" := ["stream_query"]]> ∅))
           "stream" "stream_query").
  vm_compute. left.
Defined.

(** * Script and images, position by position *)

Lemma video_submissions_app (r1 r2 : list Request) :
  video_submissions (r1 ++ r2) = video_submissions r1 ++ video_submissions r2.
Proof. induction r1 as [|[] r1 IH]; simpl; by rewrite ?IH. Qed.

Lemma video_submissions_length (requests : list Request) :
  length (video_submissions requests) = submissions requests.
Proof. induction requests as [|[] requests IH]; simpl; by rewrite ?IH. Qed.

Lemma video_stage_no_submission (w w' : World) :
  video_stage 0 w w' ->
  exists requests, sent w' = sent w ++ requests /\ video_submissions requests = [].
Proof.
  intros (requests & (Hsent & _) & Hjobs). exists requests. split; [done|].
  apply length_zero_iff_nil. rewrite video_submissions_length. lia.
Qed.

(** A scene that returns has submitted one job: its prompt, with the
    start image of the pair at its position. *)
Lemma scene_clip_submission (E : Env) (fuel : nat) (imgs : Images) (i : nat)
    (scene : ScriptEntry) (w w' : World) (clip : option string) :
  scene_clip E fuel imgs i scene w = (Ok clip, w') ->
  exists img requests,
    images imgs !! i = Some img /\
    sent w' = sent w ++ requests /\
    video_submissions requests =
      [((if (i =? 0)%nat then entry_description scene +:+ pan_instruction
         else entry_description scene), start_image_path img)].
Proof.
  unfold scene_clip. intros H.
  bind_inv H u w1 Hprint. injection Hprint as _ <-.
  bind_inv H img w2 Himg. apply getitem_ok in Himg as [Himg ->].
  bind_inv H img' w3 Himg'. apply getitem_ok in Himg' as [_ ->].
  bind_inv H job w4 Hjob.
  assert (Hsent4 : sent w4 = sent w ++
    [GenerateVideos (if (i =? 0)%nat then entry_description scene +:+ pan_instruction
                     else entry_description scene) (start_image_path img)]).
  { unfold call_generate_videos in Hjob.
    destruct (generate_videos E _ _ _ _); [|discriminate]. by injection Hjob as _ <-. }
  bind_inv H operation w5 Hpoll.
  destruct (video_stage_no_submission w4 w5) as (polls & Hsent5 & Hpolls).
  { pose proof (poll_video fuel job 0 w4) as Hp. by rewrite Hpoll in Hp. }
  assert (Hend : sent w' = sent w5).
  { destruct (response operation) as [videos|].
    - bind_inv H data w6 Hdata. apply getitem_ok in Hdata as [_ ->].
      bind_inv H u' w7 Hwrite. injection Hwrite as _ <-. by injection H as _ <-.
    - bind_inv H u1 w6 Hp1. injection Hp1 as _ <-.
      bind_inv H u2 w7 Hp2. injection Hp2 as _ <-. by injection H as _ <-. }
  exists img, ([GenerateVideos
                  (if (i =? 0)%nat then entry_description scene +:+ pan_instruction
                   else entry_description scene) (start_image_path img)] ++ polls).
  split; [done|]. split.
  - by rewrite Hend, Hsent5, Hsent4, <- app_assoc.
  - rewrite video_submissions_app, Hpolls. reflexivity.
Qed.

Lemma generate_clips_submissions (E : Env) (fuel : nat) (imgs : Images)
    (entries : list ScriptEntry) :
  forall i acc w video_clips w',
    generate_clips E fuel imgs i entries acc w = (Ok video_clips, w') ->
    exists requests,
      sent w' = sent w ++ requests /\
      video_submissions requests =
        paired_submissions i entries (drop i (images imgs)) /\
      length (video_submissions requests) = length entries.
Proof.
  induction entries as [|scene entries IH]; intros i acc w video_clips w' H;
    simpl in H.
  - injection H as _ <-. exists []. by rewrite app_nil_r.
  - bind_inv H clip w1 Hscene.
    destruct (scene_clip_submission _ _ _ _ _ _ _ _ Hscene)
      as (img & r1 & Himg & Hsent1 & Hsub1).
    destruct (IH _ _ _ _ _ H) as (r2 & Hsent2 & Hsub2 & Hlen2).
    exists (r1 ++ r2). split; [by rewrite Hsent2, Hsent1, app_assoc|]. split.
    + rewrite video_submissions_app, Hsub1, Hsub2, (drop_S _ _ _ Himg). reflexivity.
    + rewrite video_submissions_app, length_app, Hsub1, Hlen2. reflexivity.
Qed.

Lemma generate_clips_short (E : Env) (fuel : nat) (imgs : Images)
    (entries : list ScriptEntry) :
  videos_complete E fuel ->
  forall i acc w,
    i <= length (images imgs) ->
    length (images imgs) < i + length entries ->
    fst (generate_clips E fuel imgs i entries acc w) = Raise IndexError.
Proof.
  intros Hcomplete. induction entries as [|scene entries IH]; intros i acc w Hi Hshort;
    simpl in *; [lia|].
  destruct (images imgs !! i) as [img|] eqn:Himg.
  - destruct (Hcomplete (length (sent w))
                (if (i =? 0)%nat then entry_description scene +:+ pan_instruction
                 else entry_description scene)
                (start_image_path img) (fs w))
      as (job & m & Hjob & Hm & Hdone & Hvideos).
    destruct (scene_clip_completes E fuel imgs i scene img job m w
                Himg Hjob Hm Hdone Hvideos) as (clip & w1 & Hrun & _).
    rewrite (bind_step _ _ _ _ _ Hrun). apply lookup_lt_Some in Himg.
    apply IH; lia.
  - apply bind_raise_fst. unfold scene_clip.
    erewrite bind_step by reflexivity. apply bind_raise_fst.
    unfold getitem. by rewrite Himg.
Qed.

(** X11. [create_video] takes script and images together by position.
    Whenever it returns, there is an image pair for every entry, and
    the video jobs it has submitted are, in order, one per entry: the
    prompt of the entry, with the start image of the pair at the same
    position.  A scene without a pair at its position raises
    [IndexError] before any request; so, the video jobs completing,
    [create_video] raises [IndexError] when there are fewer pairs than
    entries. *)
Theorem create_video_needs_pairs (E : Env) (fuel : nat) (story : Story)
    (sc : Script) (imgs : Images) (w : World) :
  (forall video_path w',
     create_video E fuel story sc imgs w = (Ok video_path, w') ->
     length (script sc) <= length (images imgs) /\
     exists requests,
       sent w' = sent w ++ requests /\
       length (video_submissions requests) = length (script sc) /\
       video_submissions requests =
         paired_submissions 0 (script sc) (images imgs)) /\
  (forall i scene w1,
     images imgs !! i = None ->
     scene_clip E fuel imgs i scene w1 =
       (Raise IndexError,
        printed ("Generating video for scene " +:+ pretty (S i) +:+ "...") w1)) /\
  (videos_complete E fuel ->
   length (images imgs) < length (script sc) ->
   fst (create_video E fuel story sc imgs w) = Raise IndexError).
Proof.
  split; [|split].
  - unfold create_video. intros video_path w' H.
    bind_inv H u w1 Hprint. injection Hprint as _ <-.
    bind_inv H video_clips w2 Hloop.
    split.
    + destruct (decide (length (script sc) <= length (images imgs))) as [|Hshort];
        [done|].
      destruct (generate_clips_pairs _ _ _ _ _ _ _ _ _ Hloop (length (images imgs)))
        as [img Himg]; [lia|].
      simpl in Himg. apply lookup_lt_Some in Himg. lia.
    + destruct (generate_clips_submissions _ _ _ _ _ _ _ _ _ Hloop)
        as (r1 & Hsent1 & Hsub1 & Hlen1).
      destruct (video_stage_no_submission w2 w') as (r2 & Hsent2 & Hsub2).
      { pose proof (stitch_video E video_clips w2) as Hs. by rewrite H in Hs. }
      exists (r1 ++ r2). split; [by rewrite Hsent2, Hsent1, app_assoc|].
      rewrite video_submissions_app, Hsub2, app_nil_r. split; [done|].
      by rewrite Hsub1.
  - intros i scene w1 Himg. unfold scene_clip.
    erewrite bind_step by reflexivity. apply bind_raise.
    unfold getitem. by rewrite Himg.
  - intros Hcomplete Hshort. unfold create_video.
    erewrite bind_step by reflexivity. apply bind_raise_fst.
    apply generate_clips_short; [done|lia|lia].
Qed.

Lemma create_video_needs_pairs_witness :
  fst (create_video doe_env 5 (mkStory []) doe_script (mkImages (take 2 (images doe_images)))
         doe_world) = Raise IndexError.
Proof.
  apply (proj2 (proj2 (create_video_needs_pairs doe_env 5 (mkStory []) doe_script
                         (mkImages (take 2 (images doe_images))) doe_world))).
  - apply doe_videos_complete.
  - vm_compute. lia.
Defined.
